(** * GraphWeaver: a shallow embedding of the query-generation pipeline

    The development follows the layout of the repository:
    - [PyStr]      Python [str] values as sequences of code points, with the
                   few string methods the code calls;
    - [Re]         the backtracking semantics of the regular expressions that
                   the code hands to [re.search];
    - [Py]         Python values, exceptions, and the state-and-exception
                   monad in which the effectful functions are written;
    - [Neo4j]      the property graph behind [Neo4jGraph] and the Cypher
                   statements the code issues;
    - [Run]        what the code reaches outside the repository, and the
                   monad of its effects;
    - [Neo4jStore] src/utils/neo4j_store.py;
    - [Validation] src/utils/validation.py;
    - [Llm]        src/utils/llm_orchestration.py;
    - [Main]       src/main.py;
    - [App]        [run_inference] of src/app.py. *)

From Stdlib Require Import String Ascii.
From Stdlib Require Import List NArith ZArith Lia Bool.
From Stdlib Require Import Permutation Sorted.
Import ListNotations.

(* ================================================================== *)
(** * Python strings *)
(* ================================================================== *)

Module PyStr.

(** A Python [str] is a sequence of Unicode code points. *)
Definition pystr := list N.

(** ASCII literals of the source, as code points. *)
Definition py (s : string) : pystr :=
  map N_of_ascii (list_ascii_of_string s).
Arguments py s%_string : simpl never.

Definition NL : N := 10%N.
Definition DQUOTE : N := 34%N.
Definition QUOTE : N := 39%N.
Definition BACKTICK : N := 96%N.

(** [str.isspace] on one code point; the same predicate is the regular
    expression class [\s] for [str] patterns. *)
Definition isspace (c : N) : bool :=
  ((9 <=? c) && (c <=? 13) || (28 <=? c) && (c <=? 32)
   || (c =? 133) || (c =? 160) || (c =? 5760)
   || (8192 <=? c) && (c <=? 8202)
   || (c =? 8232) || (c =? 8233) || (c =? 8239) || (c =? 8287)
   || (c =? 12288))%N.

Fixpoint eqb (a b : pystr) : bool :=
  match a, b with
  | [], [] => true
  | x :: a', y :: b' => (x =? y)%N && eqb a' b'
  | _, _ => false
  end.

Fixpoint lstrip (s : pystr) : pystr :=
  match s with
  | c :: t => if isspace c then lstrip t else s
  | [] => []
  end.

Definition rstrip (s : pystr) : pystr := rev (lstrip (rev s)).

(** [s.strip()] *)
Definition strip (s : pystr) : pystr := rstrip (lstrip s).

(** [s.startswith(p)], returning the rest of [s] after [p]. *)
Fixpoint strip_prefix (p s : pystr) : option pystr :=
  match p with
  | [] => Some s
  | x :: p' =>
      match s with
      | y :: s' => if (x =? y)%N then strip_prefix p' s' else None
      | [] => None
      end
  end.

Definition startswith (s p : pystr) : bool :=
  match strip_prefix p s with Some _ => true | None => false end.

(** [sep.join(parts)] *)
Fixpoint join (sep : pystr) (parts : list pystr) : pystr :=
  match parts with
  | [] => []
  | [p] => p
  | p :: rest => p ++ sep ++ join sep rest
  end.

(** [s.replace(c, "")] for a one-character [c]. *)
Definition remove_char (c : N) (s : pystr) : pystr :=
  filter (fun x => negb (x =? c)%N) s.

(** Truthiness of a string: non-empty. *)
Definition truthy (s : pystr) : bool :=
  match s with [] => false | _ => true end.

(** Lexicographic order on code points, the order of [ORDER BY] on strings. *)
Fixpoint leb (a b : pystr) : bool :=
  match a, b with
  | [], _ => true
  | _ :: _, [] => false
  | x :: a', y :: b' =>
      if (x <? y)%N then true
      else if (x =? y)%N then leb a' b' else false
  end.

End PyStr.

Import PyStr.

(* ================================================================== *)
(** * Regular expressions, as the backtracking matcher runs them *)
(* ================================================================== *)

Module Re.

(** Captured groups, in the order in which the groups close. *)
Definition caps := list pystr.

(** A matcher in continuation-passing style: it consumes a prefix of the
    remaining input and hands the rest to its continuation; [None] makes the
    caller backtrack. *)
Definition cont := pystr -> caps -> option caps.

Definition accept : cont := fun _ c => Some c.

(** A literal. *)
Definition lit (p : pystr) (k : cont) : cont :=
  fun s c =>
    match strip_prefix p s with
    | Some r => k r c
    | None => None
    end.

(** [x*] for a character class [x]: longest first, giving back one
    character at a time. *)
Fixpoint star_greedy (cls : N -> bool) (k : cont) (s : pystr) (c : caps)
  : option caps :=
  match s with
  | x :: t =>
      if cls x then
        match star_greedy cls k t c with
        | Some r => Some r
        | None => k s c
        end
      else k s c
  | [] => k [] c
  end.

(** [x+] *)
Definition plus_greedy (cls : N -> bool) (k : cont) : cont :=
  fun s c =>
    match s with
    | x :: t => if cls x then star_greedy cls k t c else None
    | [] => None
    end.

(** [x*?]: shortest first. *)
Fixpoint star_lazy (cls : N -> bool) (k : cont) (s : pystr) (c : caps)
  : option caps :=
  match k s c with
  | Some r => Some r
  | None =>
      match s with
      | x :: t => if cls x then star_lazy cls k t c else None
      | [] => None
      end
  end.

(** A capturing group around [body]: the text consumed by [body]. *)
Definition group (body : cont -> cont) (k : cont) : cont :=
  fun s c =>
    body (fun s' c' => k s' (c' ++ [firstn (length s - length s') s])) s c.

(** [.] under [re.S] / [re.DOTALL] *)
Definition any (_ : N) : bool := true.

(** [[^']] *)
Definition not_quote (c : N) : bool := negb (c =? QUOTE)%N.

(** [re.search]: the first start position, from the left, where the
    pattern matches. *)
Fixpoint search (m : cont) (s : pystr) : option caps :=
  match m s [] with
  | Some r => Some r
  | None =>
      match s with
      | _ :: t => search m t
      | [] => None
      end
  end.

(** [match.group(i)] for a group that took part in the match. *)
Definition group_at (i : nat) (c : caps) : pystr := nth i c [].

End Re.

(* ================================================================== *)
(** * Python values and exceptions *)
(* ================================================================== *)

Module Py.

(** The values that [json.loads] builds and that the entry point returns. *)
#[warnings="-register-all"]
Inductive pyval : Type :=
| PNone
| PBool (b : bool)
| PInt (z : Z)
| PFloat (text : pystr)
| PStr (s : pystr)
| PList (items : list pyval)
| PDict (items : list (pystr * pyval)).

(** [d.get(key)] on the items of a dict: [None] when the key is missing. *)
Fixpoint dict_get (d : list (pystr * pyval)) (key : pystr) : pyval :=
  match d with
  | [] => PNone
  | (k, v) :: rest => if PyStr.eqb k key then v else dict_get rest key
  end.

(** ["key" in d] *)
Definition dict_has (d : list (pystr * pyval)) (key : pystr) : bool :=
  existsb (fun kv => PyStr.eqb (fst kv) key) d.

(** The exceptions the modelled code can raise. *)
Inductive exn : Type :=
| ValueError (msg : pystr)
| RuntimeError (msg : pystr)
| JSONDecodeError
| AttributeError
| KeyError (key : pystr)
| TypeError
| OSError
| GraphQLError.

Inductive outcome (A : Type) : Type :=
| Ret (a : A)
| Raise (e : exn).
Arguments Ret {A} a.
Arguments Raise {A} e.

(** [try: body  except: handler] with a bare [except]. *)
Definition try_except {A : Type} (body : outcome A) (handler : A) : A :=
  match body with
  | Ret a => a
  | Raise _ => handler
  end.

Definition obind {A B : Type} (m : outcome A) (f : A -> outcome B)
  : outcome B :=
  match m with
  | Ret a => f a
  | Raise e => Raise e
  end.

End Py.

Import Py.

(* ================================================================== *)
(** * The schema graph in Neo4j (src/utils/neo4j_store.py, data part) *)
(* ================================================================== *)

Module Neo4j.

(** Nodes carry a label and their properties: [(:Type {name})] and
    [(:Field {name, parentType})]. *)
Inductive node : Type :=
| TypeNode (name : pystr)
| FieldNode (name parentType : pystr).

(** Relationships, between the nodes with the given properties:
    [(:Type {name:t})-[:HAS_FIELD]->(:Field {name:f, parentType:p})] and
    [(:Type {name:src})-[:HAS_RELATION {field}]->(:Type {name:dst})]. *)
Inductive rel : Type :=
| HAS_FIELD (t f p : pystr)
| HAS_RELATION (src dst field : pystr).

(** The database: what was created, in creation order.  A list, so that a
    node or relationship created twice shows as a duplicate. *)
Record Store : Type := mkStore {
  nodes : list node;
  rels : list rel
}.

Definition empty : Store := mkStore [] [].

Definition node_eqb (a b : node) : bool :=
  match a, b with
  | TypeNode x, TypeNode y => PyStr.eqb x y
  | FieldNode x p, FieldNode y q => PyStr.eqb x y && PyStr.eqb p q
  | _, _ => false
  end.

Definition rel_eqb (a b : rel) : bool :=
  match a, b with
  | HAS_FIELD t f p, HAS_FIELD t' f' p' =>
      PyStr.eqb t t' && PyStr.eqb f f' && PyStr.eqb p p'
  | HAS_RELATION s d f, HAS_RELATION s' d' f' =>
      PyStr.eqb s s' && PyStr.eqb d d' && PyStr.eqb f f'
  | _, _ => false
  end.

(** [MERGE (n:Label {props})]: match the node, create it only when there is
    none. *)
Definition merge_node (n : node) (g : Store) : Store :=
  if existsb (node_eqb n) (nodes g) then g
  else mkStore (nodes g ++ [n]) (rels g).

(** [MERGE (a)-[:R {props}]->(b)] between bound nodes. *)
Definition merge_rel (r : rel) (g : Store) : Store :=
  if existsb (rel_eqb r) (rels g) then g
  else mkStore (nodes g) (rels g ++ [r]).

(** The Cypher statements the repository sends to [graph.query]. *)
Inductive cypher : Type :=
| DETACH_DELETE_ALL
    (* MATCH (n) DETACH DELETE n *)
| COUNT_NODES
    (* MATCH (n) RETURN count(n) as count *)
| MERGE_TYPE (name : pystr)
    (* MERGE (t:Type {name:$name}) *)
| MERGE_FIELD (fname tname : pystr)
    (* MERGE (f:Field {name:$fname, parentType:$tname})
       MERGE (t:Type {name:$tname})
       MERGE (t)-[:HAS_FIELD]->(f) *)
| MERGE_RELATION (src dst fname : pystr)
    (* MERGE (src:Type {name:$src})
       MERGE (dst:Type {name:$dst})
       MERGE (src)-[:HAS_RELATION {field:$fname}]->(dst) *)
| MATCH_TYPE_NAMES
    (* MATCH (t:Type) RETURN t.name as name *)
| MATCH_SNIPPET (type : pyval)
    (* MATCH (t:Type {name:$type})-[:HAS_FIELD]->(f:Field)
       OPTIONAL MATCH (t)-[r:HAS_RELATION]->(dst:Type)
       WHERE r.field = f.name
       RETURN f.name as field, dst.name as dstType
       ORDER BY f.name *)
| SHORTEST_PATH (src dst : pystr) (max_hops : Z)
    (* MATCH p = shortestPath((src:Type {name:'..'})
         -[:HAS_RELATION*..max_hops]->(dst:Type {name:'..'}))
       RETURN [n in nodes(p) | n.name] as nodes,
              [r in relationships(p) | r.field] as fields *)
| MATCH_FIELDS (t : pystr).
    (* MATCH (t:Type {name:$t})-[:HAS_FIELD]->(f:Field)
       RETURN f.name as field *)

(** A statement without a writing clause. *)
Definition is_read (q : cypher) : bool :=
  match q with
  | COUNT_NODES | MATCH_TYPE_NAMES | MATCH_SNIPPET _
  | SHORTEST_PATH _ _ _ | MATCH_FIELDS _ => true
  | DETACH_DELETE_ALL | MERGE_TYPE _ | MERGE_FIELD _ _
  | MERGE_RELATION _ _ _ => false
  end.

(** The effect of a statement on the database. *)
Definition update (q : cypher) (g : Store) : Store :=
  match q with
  | DETACH_DELETE_ALL => empty
  | MERGE_TYPE name => merge_node (TypeNode name) g
  | MERGE_FIELD fname tname =>
      merge_rel (HAS_FIELD tname fname tname)
        (merge_node (TypeNode tname)
           (merge_node (FieldNode fname tname) g))
  | MERGE_RELATION src dst fname =>
      merge_rel (HAS_RELATION src dst fname)
        (merge_node (TypeNode dst)
           (merge_node (TypeNode src) g))
  | COUNT_NODES | MATCH_TYPE_NAMES | MATCH_SNIPPET _
  | SHORTEST_PATH _ _ _ | MATCH_FIELDS _ => g
  end.

(** ** Rows returned by the reading statements *)

(** [count(n)] over all nodes. *)
Definition count_nodes (g : Store) : Z := Z.of_nat (length (nodes g)).

(** [t.name] of every [Type] node. *)
Definition type_names (g : Store) : list pystr :=
  flat_map (fun n => match n with TypeNode x => [x] | _ => [] end) (nodes g).

(** The [Field] nodes reached from type [t] by [HAS_FIELD]: their names. *)
Definition field_names (g : Store) (t : pystr) : list pystr :=
  flat_map (fun r =>
    match r with
    | HAS_FIELD t' f _ => if PyStr.eqb t' t then [f] else []
    | _ => []
    end) (rels g).

(** Targets of the [HAS_RELATION] relationships leaving [t] whose [field]
    property is [f]. *)
Definition relation_targets (g : Store) (t f : pystr) : list pystr :=
  flat_map (fun r =>
    match r with
    | HAS_RELATION s d fld =>
        if PyStr.eqb s t && PyStr.eqb fld f then [d] else []
    | _ => []
    end) (rels g).

(** One row of the snippet statement: [field] and [dstType] (null when the
    optional match found nothing). *)
Definition snippet_row : Type := (pystr * option pystr)%type.

(** The rows of the snippet statement before [ORDER BY]. *)
Definition snippet_matches (g : Store) (t : pystr) : list snippet_row :=
  flat_map (fun f =>
    match relation_targets g t f with
    | [] => [(f, None)]
    | ds => map (fun d => (f, Some d)) ds
    end) (field_names g t).

(** [ORDER BY f.name]: what the database may return, rows with equal keys
    in any order. *)
Definition row_le (a b : snippet_row) : Prop :=
  PyStr.leb (fst a) (fst b) = true.

Definition ordered_rows (g : Store) (t : pystr) (rows : list snippet_row)
  : Prop :=
  Permutation (snippet_matches g t) rows /\ StronglySorted row_le rows.

(** An ordering the model computes with: stable insertion by key. *)
Fixpoint insert_row (r : snippet_row) (l : list snippet_row)
  : list snippet_row :=
  match l with
  | [] => [r]
  | x :: l' =>
      if PyStr.leb (fst r) (fst x) then r :: l else x :: insert_row r l'
  end.

Definition order_by_field (l : list snippet_row) : list snippet_row :=
  fold_right insert_row [] l.

Definition snippet_rows (g : Store) (t : pystr) : list snippet_row :=
  order_by_field (snippet_matches g t).

(** One row of the path statement. *)
Record path_row : Type := mkPath {
  p_nodes : list pystr;
  p_fields : list pystr
}.

(** Outgoing [HAS_RELATION] relationships of [u]: target and label. *)
Definition out_relations (g : Store) (u : pystr) : list (pystr * pystr) :=
  flat_map (fun r =>
    match r with
    | HAS_RELATION s d f => if PyStr.eqb s u then [(d, f)] else []
    | _ => []
    end) (rels g).

(** All directed paths of exactly [k] relationships that start at [u]. *)
Fixpoint paths_from (g : Store) (k : nat) (u : pystr) : list path_row :=
  match k with
  | O => [mkPath [u] []]
  | S k' =>
      flat_map (fun df =>
        map (fun p => mkPath (u :: p_nodes p) (snd df :: p_fields p))
            (paths_from g k' (fst df)))
        (out_relations g u)
  end.

Definition ends_at (dst : pystr) (p : path_row) : bool :=
  PyStr.eqb (last (p_nodes p) []) dst.

(** [shortestPath] over [*..max_hops] between two different nodes:
    lengths 1, 2, ... are tried in turn and one path of the first length
    that reaches [dst] is the row. *)
Fixpoint shortest_from (g : Store) (src dst : pystr) (k n : nat)
  : list path_row :=
  match n with
  | O => []
  | S n' =>
      match filter (ends_at dst) (paths_from g k src) with
      | p :: _ => [p]
      | [] => shortest_from g src dst (S k) n'
      end
  end.

(** The rows of [SHORTEST_PATH src dst max_hops].  The statement is
    given this meaning for [src] other than [dst] only, see
    [path_statement_ok]: [shortestPath] does not take a node as both of
    its ends. *)
Definition shortest_paths (g : Store) (src dst : pystr) (max_hops : Z)
  : list path_row :=
  shortest_from g src dst 1 (Z.to_nat max_hops).

Definition BACKSLASH : N := 92%N.

(** A text that a Cypher string literal in single quotes holds as it is:
    no quote, which would end the literal, and no backslash, which would
    start an escape. *)
Definition plain (s : pystr) : bool :=
  forallb (fun c => negb ((c =? QUOTE) || (c =? BACKSLASH))%N) s.

(** The text that the f-string of [get_schema_paths] makes of [src], [dst]
    and [max_hops] is the statement [SHORTEST_PATH src dst max_hops], with
    the meaning above: both names are plain, they differ, and the bound
    [*..max_hops] is one at least. *)
Definition path_statement_ok (src dst : pystr) (max_hops : Z) : bool :=
  plain src && plain dst && negb (PyStr.eqb src dst) && (1 <=? max_hops)%Z.

End Neo4j.

Import Neo4j.

(* ================================================================== *)
(** * The hosts of the pipeline and the monad of its effects *)
(* ================================================================== *)

Module Run.

(** What the code reaches outside the repository: the language-model
    provider behind [llm.predict], the [json] and [graphql] libraries, the
    process environment, the two schema files, and the database where it
    is sent a text that is not one of the statements of [cypher]. *)
Record Host : Type := mkHost {
  (** state of the model provider, and one completion *)
  LLM : Type;
  predict : LLM -> pystr -> pystr * LLM;
  (** [json.loads]; [None] when it raises [JSONDecodeError] *)
  json_loads : pystr -> option pyval;
  (** [str()] of a value that is neither a string nor [None] *)
  py_repr : pyval -> pystr;
  (** [parse] then [validate] against the client schema: the messages of
      the errors found, or the message of the exception raised *)
  graphql_check : pystr -> list pystr + pystr;
  (** [os.getenv] *)
  getenv : pystr -> option pystr;
  (** [schema.type_map] in insertion order: each type name with the fields
      of the type when it has a [fields] attribute, each field with the
      text of its type, [str(field.type)] *)
  type_map : list (pystr * option (list (pystr * pystr)));
  (** what [open("./schema/schema.graphql")], [f.read()] and
      [build_schema] raise, if one of them raises *)
  sdl_error : option exn;
  (** what [open("./schema/schema.json")], [json.load] and
      [build_client_schema] raise, if one of them raises *)
  introspection_error : option exn;
  (** the answer of the database to the text the f-string of
      [get_schema_paths] makes of [src], [dst] and [max_hops] when that
      text is not the statement [SHORTEST_PATH]: rows or an error, and the
      database afterwards, which such a text can have written *)
  path_text : pystr -> pystr -> Z -> Store -> outcome (list path_row) * Store
}.

(** What one run observes of its collaborators. *)
Inductive event : Type :=
| EvQuery (q : cypher)
| EvPathText (src dst : pystr) (max_hops : Z)
| EvPredict (prompt response : pystr)
| EvValidate (query : pystr) (errors : list pystr).

Section WithHost.

Variable h : Host.

Record State : Type := mkState {
  graph : Store;
  llm : LLM h;
  log : list event
}.

Definition M (A : Type) : Type := State -> outcome A * State.

Definition ret {A : Type} (a : A) : M A := fun st => (Ret a, st).

Definition raise {A : Type} (e : exn) : M A := fun st => (Raise e, st).

Definition bind {A B : Type} (m : M A) (f : A -> M B) : M B :=
  fun st =>
    match m st with
    | (Ret a, st') => f a st'
    | (Raise e, st') => (Raise e, st')
    end.

(** A pure computation that may raise. *)
Definition lift {A : Type} (o : outcome A) : M A := fun st => (o, st).

(** [for x in xs: body(x)] *)
Fixpoint for_each {A : Type} (xs : list A) (body : A -> M unit) : M unit :=
  match xs with
  | [] => ret tt
  | x :: rest => bind (body x) (fun _ => for_each rest body)
  end.

(** [[f(x) for x in xs]] with an effectful [f] *)
Fixpoint map_m {A B : Type} (f : A -> M B) (xs : list A) : M (list B) :=
  match xs with
  | [] => ret []
  | x :: rest =>
      bind (f x) (fun y => bind (map_m f rest) (fun ys => ret (y :: ys)))
  end.

(** [graph.query(q)]: the statement runs against the database. *)
Definition graph_query (q : cypher) : M unit :=
  fun st =>
    (Ret tt, mkState (update q (graph st)) (llm st) (log st ++ [EvQuery q])).

(** The rows of a statement, read from the database after it ran. *)
Definition rows {R : Type} (q : cypher) (read : Store -> R) : M R :=
  bind (graph_query q) (fun _ => fun st => (Ret (read (graph st)), st)).

(** [llm.predict(prompt)] *)
Definition llm_predict (prompt : pystr) : M pystr :=
  fun st =>
    let '(response, l') := predict h (llm st) prompt in
    (Ret response,
     mkState (graph st) l' (log st ++ [EvPredict prompt response])).

Definition record (e : event) : M unit :=
  fun st => (Ret tt, mkState (graph st) (llm st) (log st ++ [e])).

(** A step that raises the error [e], when there is one. *)
Definition failing (e : option exn) : M unit :=
  match e with
  | Some x => raise x
  | None => ret tt
  end.

End WithHost.

Arguments ret {h A} a.
Arguments raise {h A} e.
Arguments lift {h A} o.
Arguments bind {h A B} m f.
Arguments for_each {h A} xs body.
Arguments map_m {h A B} f xs.
Arguments graph_query {h} q.
Arguments rows {h R} q read.
Arguments record {h} e.
Arguments failing {h} e.
Arguments llm_predict {h} prompt.
Arguments graph {h} s.
Arguments llm {h} s.
Arguments log {h} s.
Arguments mkState {h} graph llm log.

End Run.

Import Run.

Declare Scope run_scope.
Delimit Scope run_scope with run.
Notation "x <- m ;; k" := (bind m (fun x => k))
  (at level 61, m at next level, right associativity) : run_scope.
Notation "m ;;; k" := (bind m (fun _ => k))
  (at level 61, right associativity) : run_scope.
Open Scope run_scope.

(* ================================================================== *)
(** * src/utils/neo4j_store.py *)
(* ================================================================== *)

Module Neo4jStore.

Section WithHost.

Variable h : Host.

(** [not os.getenv(var)]: unset or empty. *)
Definition env_missing (var : pystr) : bool :=
  match getenv h var with
  | Some v => negb (truthy v)
  | None => true
  end.

Definition NEO4J_VARS : list pystr :=
  [py "NEO4J_URI"; py "NEO4J_USER"; py "NEO4J_PASSWORD"].

Definition LLM_VARS : list pystr :=
  [py "LLM_API_KEY"; py "LLM_BASE_URL"; py "LLM_MODEL"].

(** [check_env_vars(required_vars=None)] *)
Definition check_env_vars (required_vars : option (list pystr))
  : outcome (list (pystr * option pystr)) :=
  let required_vars :=
    match required_vars with
    | None => NEO4J_VARS ++ LLM_VARS
    | Some vs => vs
    end in
  let missing := filter env_missing required_vars in
  match missing with
  | _ :: _ =>
      Raise (ValueError
        (py "Missing required environment variables: "
         ++ join (py ", ") missing))
  | [] => Ret (map (fun var => (var, getenv h var)) required_vars)
  end.

(** [init_graph_driver()]: the connection is to the database of the
    state; the handle itself carries nothing. *)
Definition init_graph_driver : M h unit :=
  _ <- lift (check_env_vars (Some NEO4J_VARS)) ;;
  ret tt.

(** [is_graph_built(graph, rebuild=False)] *)
Definition is_graph_built (rebuild : bool) : M h bool :=
  if rebuild then
    graph_query DETACH_DELETE_ALL ;;;
    ret false
  else
    result <- rows COUNT_NODES (fun g => [count_nodes g]) ;;
    let count := match result with c :: _ => c | [] => 0%Z end in
    ret (0 <? count)%Z.

(** [str(field.type).replace("!", "").replace("[", "").replace("]", "")] *)
Definition field_type_name (t : pystr) : pystr :=
  remove_char 93 (remove_char 91 (remove_char 33 t)).

(** [name in type_map] *)
Definition in_type_map (name : pystr) : bool :=
  existsb (fun kv => PyStr.eqb (fst kv) name) (type_map h).

(** [with graph as graph: body] for the object [init_graph_driver()]
    returns.  The class [Neo4jGraph] of [langchain_community] defines
    neither [__enter__] nor [__exit__]: the statement raises [TypeError]
    and the body does not run. *)
Definition with_graph {A : Type} (body : M h A) : M h A :=
  raise TypeError.

(** [graph.query(statement, name=...)], the parameters of the statement
    given as keyword arguments.  [Neo4jGraph.query(query, params)] has no
    such keywords: the call raises [TypeError] and nothing is sent. *)
Definition graph_query_keywords (q : cypher) : M h unit :=
  raise TypeError.

(** The body of the loop over the fields of one type. *)
Definition build_field (type_name : pystr) (fld : pystr * pystr)
  : M h unit :=
  let '(field_name, ftype) := fld in
  let field_type := field_type_name ftype in
  graph_query_keywords (MERGE_FIELD field_name type_name) ;;;
  if in_type_map field_type then
    graph_query_keywords (MERGE_RELATION type_name field_type field_name)
  else ret tt.

(** The body of the loop over [type_map.items()]. *)
Definition build_type (entry : pystr * option (list (pystr * pystr)))
  : M h unit :=
  let '(type_name, gql_fields) := entry in
  match gql_fields with
  | None => ret tt
  | Some fields =>
      if startswith type_name (py "__") then ret tt
      else
        graph_query_keywords (MERGE_TYPE type_name) ;;;
        for_each fields (build_field type_name)
  end.

(** [build_graph(graph)] *)
Definition build_graph : M h bool :=
  failing (sdl_error h) ;;;
  with_graph (for_each (type_map h) build_type) ;;;
  status <- is_graph_built false ;;
  ret status.

(** [get_schema_types(graph)] *)
Definition get_schema_types : M h (list pystr) :=
  rows MATCH_TYPE_NAMES type_names.

(** The lines of the snippet, from the rows of the statement. *)
Definition snippet_line (row : snippet_row) : pystr :=
  match row with
  | (field, Some dstType) =>
      if truthy dstType then
        py "  " ++ field ++ py ": [" ++ dstType ++ py "]"
      else py "  " ++ field
  | (field, None) => py "  " ++ field
  end.

Definition render_snippet (type_name : pystr) (results : list snippet_row)
  : pystr :=
  join [NL]
    ([py "type " ++ type_name ++ py " {"]
     ++ map snippet_line results ++ [py "}"]).

(** [str(v)], as an f-string formats a value. *)
Definition str_of (v : pyval) : pystr :=
  match v with
  | PStr s => s
  | PNone => py "None"
  | _ => py_repr h v
  end.

(** The rows for the parameter [$type]: a [name] property is a string, so
    only a string parameter equals one. *)
Definition snippet_rows_for (g : Store) (type_name : pyval)
  : list snippet_row :=
  match type_name with
  | PStr s => snippet_rows g s
  | _ => []
  end.

(** [get_schema_snippet(graph, type_name)] *)
Definition get_schema_snippet (type_name : pyval) : M h pystr :=
  results <- rows (MATCH_SNIPPET type_name)
               (fun g => snippet_rows_for g type_name) ;;
  ret (render_snippet (str_of type_name) results).

(** [get_schema_paths(graph, src, dst, max_hops=5)]; [src] and [dst] are
    the texts the f-string puts between the quotes of the statement, as
    they are.  Where that gives the statement [SHORTEST_PATH] the rows are
    its rows; any other text is the database's to answer: it may be
    refused, and it may hold clauses of its own. *)
Definition get_schema_paths (src dst : pystr) (max_hops : Z)
  : M h (list path_row) :=
  if path_statement_ok src dst max_hops then
    rows (SHORTEST_PATH src dst max_hops)
         (fun g => shortest_paths g src dst max_hops)
  else
    fun st =>
      let '(res, g') := path_text h src dst max_hops (graph st) in
      (res, mkState g' (llm st) (log st ++ [EvPathText src dst max_hops])).

(** [validate_query(query)]: the schema file is read and the client
    schema built before the [try]. *)
Definition validate_query (query : pystr) : M h (list pystr) :=
  failing (introspection_error h) ;;;
  let errors :=
    match graphql_check h query with
    | inl errs => errs
    | inr e => [py "Parsing/validation error: " ++ e]
    end in
  record (EvValidate query errors) ;;;
  ret errors.

End WithHost.

End Neo4jStore.

Import Neo4jStore.

(* ================================================================== *)
(** * src/utils/validation.py *)
(* ================================================================== *)

Module Validation.

(** [{"field": ..., "type": ...}] *)
Record invalid : Type := mkInvalid {
  inv_field : pystr;
  inv_type : pystr
}.

(** [r"Cannot query field '([^']+)' on type '([^']+)'"] *)
Definition re_cannot_query (k : Re.cont) : Re.cont :=
  Re.lit (py "Cannot query field '")
    (Re.group (Re.plus_greedy Re.not_quote)
       (Re.lit (py "' on type '")
          (Re.group (Re.plus_greedy Re.not_quote)
             (Re.lit (py "'") k)))).

(** [extract_invalids(errors)] *)
Fixpoint extract_invalids (errors : list pystr) : list invalid :=
  match errors with
  | [] => []
  | e :: rest =>
      match Re.search (re_cannot_query Re.accept) e with
      | Some m =>
          mkInvalid (Re.group_at 0 m) (Re.group_at 1 m)
            :: extract_invalids rest
      | None => extract_invalids rest
      end
  end.

End Validation.

Import Validation.

(* ================================================================== *)
(** * src/utils/llm_orchestration.py *)
(* ================================================================== *)

Module Llm.

(** The template of [graphql_prompt], up to [{user_intent}]. *)
Definition graphql_prompt_0 : pystr :=
  join [NL]
    [ [];
      py "You are a Tableau GraphQL query generator.";
      py "Your job is to produce a VALID GraphQL query for Tableau" ++ [226%N] ++ [8364%N] ++ [8482%N] ++ py "s Metadata API.";
      [];
      py "### User intent:";
      [] ].

(** The template of [graphql_prompt], between [{user_intent}] and [{schema_path}]. *)
Definition graphql_prompt_1 : pystr :=
  join [NL]
    [ [];
      [];
      py "### Schema path:";
      [] ].

(** The template of [graphql_prompt], between [{schema_path}] and [{schema_snippets}]. *)
Definition graphql_prompt_2 : pystr :=
  join [NL]
    [ [];
      [];
      py "### Allowed schema snippets (ground truth):";
      [] ].

(** The template of [graphql_prompt], after [{schema_snippets}]. *)
Definition graphql_prompt_3 : pystr :=
  join [NL]
    [ [];
      [];
      py "### STRICT RULES:";
      py "1. Only use fields shown in the schema snippets above. Never invent fields or relations.";
      py "2. Follow the schema path exactly " ++ [226%N] ++ [8364%N] ++ [8221%N] ++ py " do not guess or insert missing links.";
      py "3. Always use plural root fields from type Query (e.g., `workbooks`, `datasources`, `databaseTables`, `tableauUsers`).";
      [];
      py "4. Filtering:";
      py "   - Allowed only on scalar fields explicitly listed in `<Type>_Filter`.";
      py "   - Do NOT use relationship fields inside filters.";
      py "   - Do NOT invent operators like `contains` unless shown in the filter type.";
      py "   - If the user intent requires filtering on a non-filterable field, return exactly:";
      py "     `No valid path`.";
      [];
      py "5. Connection vs List:";
      py "   - If a field ends with `Connection`, use the pattern:";
      py "     `connectionName(first: N) { nodes { ...fields } }`";
      py "   - If a field is a plain list (`[Type!]!`), query the items directly without `nodes`.";
      py "   - Never add pagination args (`first:`, `after:`) to plain lists.";
      [];
      py "6. Sorting:";
      py "   - Only use `orderBy:` if the schema snippet explicitly shows it.";
      py "   - Syntax: `orderBy: {field: NAME, direction: ASC}`.";
      [];
      py "7. Nested connections:";
      py "   - Query nested connections (e.g., `downstreamSheetsConnection`, `upstreamTablesConnection`) only from their parent type.";
      py "   - Never query them directly at the root.";
      [];
      py "8. Calculated fields:";
      py "   - Retrieve via `fields` or `calculatedFields` under `Datasource`.";
      py "   - Never use `worksheetFieldsConnection`.";
      [];
      py "9. Always request a few scalar fields (`id`, `name`, etc.) at each level for clarity.";
      [];
      py "10. If the user intent is a simple list (e.g., " ++ [34%N] ++ py "list all X with id and name" ++ [34%N] ++ py "), ";
      py "    only query the root type (no traversal into relationships).";
      [];
      py "11. If no valid query can be built with the schema snippets, respond exactly:";
      py "    `No valid path`";
      [];
      py "### Output format:";
      py "  - Always wrap the query in fenced code block:";
      py "  ```graphql";
      py "  query MyQuery { <your query here> }";
      py "  ```";
      [];
      py "  - Variables (if any) must be valid JSON, wrapped in:";
      [];
      py "  ```json";
      py "  { <your variables here> }";
      py "  ```";
      [] ].

(** The f-string of [infer_types_from_intent], up to [{schema_str}]. *)
Definition infer_prompt_0 : pystr :=
  join [NL]
    [ [];
      py "You are a schema type resolver.";
      py "Available schema types: " ].

(** The f-string of [infer_types_from_intent], between [{schema_str}] and [{user_intent}]. *)
Definition infer_prompt_1 : pystr :=
  join [NL]
    [ py ".";
      [];
      py "User request: " ++ [34%N] ].

(** The f-string of [infer_types_from_intent], after [{user_intent}]. *)
Definition infer_prompt_2 : pystr :=
  join [NL]
    [ [34%N];
      [];
      py "If a type has both a direct entity (Dashboard) and a Connection type (DashboardsConnection),";
      py "always prefer the base entity type (Dashboard).";
      [];
      py "Return the most relevant source type and destination type";
      py "from the schema (JSON format with keys 'src_type' and 'dst_type').";
      [] ].

(** [graphql_prompt.format(user_intent=..., schema_path=...,
    schema_snippets=...)] *)
Definition graphql_prompt_format
  (user_intent schema_path schema_snippets : pystr) : pystr :=
  graphql_prompt_0 ++ user_intent ++ graphql_prompt_1 ++ schema_path
  ++ graphql_prompt_2 ++ schema_snippets ++ graphql_prompt_3.

(** [r'\{.*\}'] with [re.DOTALL]; the group is the whole match,
    [match.group(0)]. *)
Definition re_json_object (k : Re.cont) : Re.cont :=
  Re.group (fun k' => Re.lit (py "{") (Re.star_greedy Re.any
                                         (Re.lit (py "}") k'))) k.

(** [r"```graphql(.*?)```"] with [re.S] *)
Definition re_graphql_fence (k : Re.cont) : Re.cont :=
  Re.lit (py "```graphql")
    (Re.group (Re.star_lazy Re.any) (Re.lit (py "```") k)).

(** [r"GraphQL Query:\s*(.*?)\n\nVariables:"] with [re.S] *)
Definition re_query_section (k : Re.cont) : Re.cont :=
  Re.lit (py "GraphQL Query:")
    (Re.star_greedy isspace
       (Re.group (Re.star_lazy Re.any)
          (Re.lit ([NL; NL] ++ py "Variables:") k))).

(** [r"Variables:\s*```json(.*?)```"] with [re.S] *)
Definition re_vars_fence (k : Re.cont) : Re.cont :=
  Re.lit (py "Variables:")
    (Re.star_greedy isspace
       (Re.lit (py "```json")
          (Re.group (Re.star_lazy Re.any) (Re.lit (py "```") k)))).

(** [r"Variables:\s*(\{.*\})"] with [re.S] *)
Definition re_vars_bare (k : Re.cont) : Re.cont :=
  Re.lit (py "Variables:")
    (Re.star_greedy isspace (re_json_object k)).

Section WithHost.

Variable h : Host.

(** [check_llm_env_vars(required_vars=None)] *)
Definition check_llm_env_vars (required_vars : option (list pystr))
  : outcome (list (pystr * option pystr)) :=
  let required_vars :=
    match required_vars with
    | None => LLM_VARS
    | Some vs => vs
    end in
  let missing := filter (env_missing h) required_vars in
  match missing with
  | _ :: _ =>
      Raise (ValueError
        (py "Missing required LLM environment variables: "
         ++ join (py ", ") missing))
  | [] => Ret (map (fun var => (var, getenv h var)) required_vars)
  end.

(** [get_llm()]: the client is the provider of the state. *)
Definition get_llm : M h unit :=
  _ <- lift (check_llm_env_vars None) ;;
  ret tt.

(** [infer_types_from_intent(llm, user_intent, schema_types)] *)
Definition infer_types_from_intent (user_intent : pystr)
  (schema_types : list pystr) : M h pystr :=
  let schema_str := join (py ", ") schema_types in
  let prompt :=
    infer_prompt_0 ++ schema_str ++ infer_prompt_1 ++ user_intent
    ++ infer_prompt_2 in
  resp <- llm_predict prompt ;;
  ret resp.

(** [json.loads(s)] *)
Definition loads (s : pystr) : outcome pyval :=
  match json_loads h s with
  | Some v => Ret v
  | None => Raise JSONDecodeError
  end.

(** [data.get(key)]; only a dict has the method. *)
Definition py_get (data : pyval) (key : pystr) : outcome pyval :=
  match data with
  | PDict items => Ret (dict_get items key)
  | _ => Raise AttributeError
  end.

(** [parse_types(llm_response)] *)
Definition parse_types (llm_response : pystr) : outcome (pyval * pyval) :=
  match Re.search (re_json_object Re.accept) llm_response with
  | None => Ret (PNone, PNone)
  | Some m =>
      let cleaned := Re.group_at 0 m in
      obind (loads cleaned) (fun data =>
      obind (py_get data (py "src_type")) (fun src =>
      obind (py_get data (py "dst_type")) (fun dst =>
      Ret (src, dst))))
  end.

(** [match.group(1)] on the result of [re.search], which is [None] when
    nothing matched. *)
Definition group1 (m : option Re.caps) : outcome pystr :=
  match m with
  | Some c => Ret (Re.group_at 0 c)
  | None => Raise AttributeError
  end.

(** [extract_query_and_vars(response)] *)
Definition extract_query_and_vars (response : pystr)
  : outcome (option pystr * pyval) :=
  let query :=
    match Re.search (re_graphql_fence Re.accept) response with
    | Some m => Some (strip (Re.group_at 0 m))
    | None =>
        match Re.search (re_query_section Re.accept) response with
        | Some m => Some (strip (Re.group_at 0 m))
        | None => None
        end
    end in
  let variables :=
    match Re.search (re_vars_fence Re.accept) response with
    | Some m =>
        try_except (loads (strip (Re.group_at 0 m))) (PDict [])
    | None =>
        let match_vars := Re.search (re_vars_bare Re.accept) response in
        try_except
          (obind (group1 match_vars) (fun g => loads (strip g)))
          (PDict [])
    end in
  Ret (query, variables).

End WithHost.

(** [allowed_fields_map[t]] *)
Fixpoint lookup (m : list (pystr * list pystr)) (t : pystr)
  : outcome (list pystr) :=
  match m with
  | [] => Raise (KeyError t)
  | (k, v) :: rest => if PyStr.eqb k t then Ret v else lookup rest t
  end.

(** The three lines appended for one entry of [invalids]. *)
Definition correction_lines (allowed_fields_map : list (pystr * list pystr))
  (inv : invalid) : outcome (list pystr) :=
  let t := inv_type inv in
  obind (lookup allowed_fields_map t) (fun allowed =>
  Ret [ py "Error: field '" ++ inv_field inv
          ++ py "' is not allowed on type '" ++ t ++ py "'.";
        py "Allowed fields for " ++ t ++ py ": " ++ join (py ", ") allowed;
        py "Please regenerate the query using only allowed fields. Prefer id and name where appropriate." ]).

Fixpoint correction_feedback
  (allowed_fields_map : list (pystr * list pystr)) (invalids : list invalid)
  : outcome (list pystr) :=
  match invalids with
  | [] => Ret []
  | inv :: rest =>
      obind (correction_lines allowed_fields_map inv) (fun ls =>
      obind (correction_feedback allowed_fields_map rest) (fun more =>
      Ret (ls ++ more)))
  end.

(** [build_correction_prompt(intent, original_query, invalids,
    allowed_fields_map)] *)
Definition build_correction_prompt (intent original_query : pystr)
  (invalids : list invalid) (allowed_fields_map : list (pystr * list pystr))
  : outcome pystr :=
  let lines :=
    [ py "The previously generated GraphQL query failed validation.";
      py "User intent: " ++ intent;
      py "Original query:" ++ [NL] ++ py "```graphql" ++ [NL]
        ++ original_query ++ [NL] ++ py "```" ] in
  obind (correction_feedback allowed_fields_map invalids) (fun feedback =>
  let lines := lines ++ feedback in
  let lines := lines ++
    [ py "Return only the corrected query in a ```graphql ... ``` block and variables in ```json ... ```." ] in
  Ret (join [NL; NL] lines)).

End Llm.

Import Llm.

(* ================================================================== *)
(** * src/main.py *)
(* ================================================================== *)

Module Main.

(** How the correction loop ends: a [return] from inside the body, or the
    loop condition turning false with the current query, variables and
    errors. *)
Inductive loop_end : Type :=
| Returned (result : pyval)
| Exited (query : pystr) (variables : pyval) (errors : list pystr).

(** [d[k] = v] on the items of a dict. *)
Fixpoint dict_set (d : list (pystr * list pystr)) (k : pystr)
  (v : list pystr) : list (pystr * list pystr) :=
  match d with
  | [] => [(k, v)]
  | (k', v') :: rest =>
      if PyStr.eqb k' k then (k', v) :: rest
      else (k', v') :: dict_set rest k v
  end.

(** [" -> ".join(p['nodes']) + " via " + " -> ".join(p['fields'])] *)
Definition describe_path (p : path_row) : pystr :=
  join (py " -> ") (p_nodes p) ++ py " via "
  ++ join (py " -> ") (p_fields p).

Section WithHost.

Variable h : Host.

(** The dict comprehension that maps the type of every entry of
    [invalids] to the field names the database has for it. *)
Definition allowed_fields (invalids : list invalid)
  : M h (list (pystr * list pystr)) :=
  entries <- map_m (fun inv =>
               fields <- rows (MATCH_FIELDS (inv_type inv))
                           (fun g => field_names g (inv_type inv)) ;;
               ret (inv_type inv, fields)) invalids ;;
  ret (fold_left (fun d kv => dict_set d (fst kv) (snd kv)) entries []).

(** The [while errors and retries < max_retries] loop; [left] is
    [max_retries - retries], the retries still allowed, so that
    [retries < max_retries] reads [left <> 0] and [retries += 1] takes one
    off. *)
Fixpoint correction_loop (user_intent : pystr) (left : nat)
  (query : pystr) (variables : pyval) (errors : list pystr)
  : M h loop_end :=
  match errors, left with
  | [], _ => ret (Exited query variables errors)
  | _ :: _, O => ret (Exited query variables errors)
  | _ :: _, S left' =>
      let invalids := extract_invalids errors in
      allowed_fields_map <- allowed_fields invalids ;;
      correction_prompt <-
        lift (build_correction_prompt user_intent query invalids
                allowed_fields_map) ;;
      response <- llm_predict correction_prompt ;;
      qv <- lift (extract_query_and_vars h response) ;;
      match fst qv with
      | Some query' =>
          if truthy query' then
            errors' <- validate_query h query' ;;
            correction_loop user_intent left' query' (snd qv) errors'
          else
            ret (Returned (PDict
                   [ (py "error", PStr (py "Correction step failed"));
                     (py "raw", PStr response) ]))
      | None =>
          ret (Returned (PDict
                 [ (py "error", PStr (py "Correction step failed"));
                   (py "raw", PStr response) ]))
      end
  end.

(** [generate_graphql_with_inference(user_intent, max_hops=5,
    max_retries=2)] *)
Definition generate_graphql_with_inference (user_intent : pystr)
  (max_hops max_retries : Z) : M h pyval :=
  (* Step 0 *)
  _ <- lift (check_env_vars h None) ;;
  _ <- lift (check_llm_env_vars h None) ;;
  (* Step 1 *)
  init_graph_driver h ;;;
  built <- is_graph_built h false ;;
  (if built then ret tt
   else
     status <- build_graph h ;;
     if status then ret tt
     else raise (RuntimeError (py "Error Building schema graph."))) ;;;
  (* Step 2 *)
  schema_types <- get_schema_types h ;;
  get_llm h ;;;
  inferred <- infer_types_from_intent h user_intent schema_types ;;
  types <- lift (parse_types h inferred) ;;
  let '(src_type, dst_type) := types in
  (* Step 3 *)
  paths <- get_schema_paths h (str_of h src_type) (str_of h dst_type)
             max_hops ;;
  match paths with
  | [] =>
      ret (PDict
        [ (py "error",
           PStr (py "No valid schema path found between "
                 ++ str_of h src_type ++ py " and " ++ str_of h dst_type)) ])
  | _ :: _ =>
      let schema_path := join [NL] (map describe_path paths) in
      (* Step 4 *)
      schema_snippets <- get_schema_snippet h src_type ;;
      (* Step 5 *)
      let prompt :=
        graphql_prompt_format user_intent schema_path schema_snippets in
      response <- llm_predict prompt ;;
      (* Step 6 *)
      qv <- lift (extract_query_and_vars h response) ;;
      match fst qv with
      | None =>
          ret (PDict [ (py "error", PStr (py "Invalid LLM output"));
                       (py "raw", PStr response) ])
      | Some query =>
          if negb (truthy query) then
            ret (PDict [ (py "error", PStr (py "Invalid LLM output"));
                         (py "raw", PStr response) ])
          else
            (* Step 7 *)
            errors <- validate_query h query ;;
            (* Step 8 *)
            fin <- correction_loop user_intent (Z.to_nat max_retries)
                     query (snd qv) errors ;;
            (* Step 9 *)
            match fin with
            | Returned result => ret result
            | Exited query variables errors =>
                match errors with
                | _ :: _ =>
                    ret (PDict [ (py "query", PStr query);
                                 (py "variables", variables);
                                 (py "errors", PList (map PStr errors)) ])
                | [] =>
                    ret (PDict [ (py "query", PStr query);
                                 (py "variables", variables);
                                 (py "errors", PDict []) ])
                end
            end
      end
  end.

End WithHost.

End Main.

Import Main.

(* ================================================================== *)
(** * src/app.py *)
(* ================================================================== *)

Module App.

(** What [run_inference] returns, [(user_intent, query, variables,
    errors)], or the [TypeError] that [str.join] raises for an argument it
    cannot join. *)
Inductive shown : Type :=
| Shown (user_intent : pystr) (query variables : pyval) (errors : pystr)
| JoinTypeError.

(** [d.get(key, default)] on the items of a dict. *)
Definition dict_get_or (d : list (pystr * pyval)) (key : pystr)
  (default : pyval) : pyval :=
  if dict_has d key then dict_get d key else default.

(** The strings of a list, when all its items are strings. *)
Fixpoint strings (items : list pyval) : option (list pystr) :=
  match items with
  | [] => Some []
  | PStr s :: rest => option_map (cons s) (strings rest)
  | _ :: _ => None
  end.

(** ["\n".join(v)]: a list of strings, the characters of a string or the
    keys of a dict are joined; anything else is a [TypeError]. *)
Definition join_lines (v : pyval) : option pystr :=
  match v with
  | PList items => option_map (join [NL]) (strings items)
  | PStr s => Some (join [NL] (map (fun c => [c]) s))
  | PDict d => Some (join [NL] (map fst d))
  | _ => None
  end.

Definition NO_ERRORS : pystr := [9989%N] ++ py " No validation errors".

Section WithHost.

Variable h : Host.

(** Whether a float, given by its text, is other than zero. *)
Variable float_truthy : pystr -> bool.

(** Truthiness of a value. *)
Definition py_truthy (v : pyval) : bool :=
  match v with
  | PNone => false
  | PBool b => b
  | PInt z => negb (z =? 0)%Z
  | PFloat text => float_truthy text
  | PStr s => truthy s
  | PList items => match items with [] => false | _ => true end
  | PDict items => match items with [] => false | _ => true end
  end.

(** The part of [run_inference] after the pipeline returned [result]. *)
Definition present (user_intent : pystr) (result : pyval) : outcome shown :=
  match result with
  | PDict items =>
      let query := dict_get items (py "query") in
      let variables := dict_get_or items (py "variables") (PDict []) in
      if py_truthy (dict_get items (py "errors")) then
        match join_lines (dict_get_or items (py "errors") (PList [])) with
        | Some errors => Ret (Shown user_intent query variables errors)
        | None => Ret JoinTypeError
        end
      else Ret (Shown user_intent query variables NO_ERRORS)
  | _ => Raise AttributeError
  end.

(** [run_inference(user_intent)] *)
Definition run_inference (user_intent : pystr) : M h shown :=
  result <- generate_graphql_with_inference h user_intent 5 2 ;;
  lift (present user_intent result).

End WithHost.

End App.

Import App.

(* ================================================================== *)
(** * Notions used to state the properties *)
(* ================================================================== *)

Module Spec.

(** Running a list of statements, one after the other. *)
Definition run_all (qs : list cypher) (g : Store) : Store :=
  fold_left (fun g q => update q g) qs g.

(** The longest prefix of characters in a class, and what follows it. *)
Fixpoint take_while (f : N -> bool) (s : pystr) : pystr :=
  match s with
  | x :: t => if f x then x :: take_while f t else []
  | [] => []
  end.

Fixpoint drop_while (f : N -> bool) (s : pystr) : pystr :=
  match s with
  | x :: t => if f x then drop_while f t else s
  | [] => []
  end.

(** [p] occurs in [s] right after the prefix [a]. *)
Definition occurs_at (p s a : pystr) : Prop :=
  exists b, s = a ++ p ++ b.

(** ... and nowhere further to the left. *)
Definition first_at (p s a : pystr) : Prop :=
  occurs_at p s a /\ forall a', occurs_at p s a' -> length a <= length a'.

(** The position of the first occurrence of [p] in [s]. *)
Fixpoint find_index (p s : pystr) : option nat :=
  match strip_prefix p s with
  | Some _ => Some 0
  | None =>
      match s with
      | [] => None
      | _ :: t => option_map S (find_index p t)
      end
  end.

(** The tail [(.*?)p] of a pattern: a group up to the literal [p]. *)
Definition until (p : pystr) : Re.cont :=
  Re.group (Re.star_lazy Re.any) (Re.lit p Re.accept).

(** The braces of a JSON object. *)
Definition LBRACE : N := 123%N.
Definition RBRACE : N := 125%N.


(** ** The shapes of a reply *)


(** [body] is what stands between the first opening fence of the reply and
    the first closing fence after it. *)
Definition first_fence (s body : pystr) : Prop :=
  exists pre post,
    s = pre ++ py "```graphql" ++ body ++ py "```" ++ post
    /\ first_at (py "```graphql") s pre
    /\ first_at (py "```") (body ++ py "```" ++ post) body.



(** A validator message that names a field that cannot be queried on a
    type: after [pre], the text [Cannot query field 'f' on type 't']. *)
Definition cannot_query_at (e pre f t : pystr) : Prop :=
  (exists post,
     e = pre ++ py "Cannot query field '" ++ f ++ py "' on type '" ++ t
         ++ py "'" ++ post)
  /\ f <> [] /\ t <> []
  /\ forallb Re.not_quote f = true /\ forallb Re.not_quote t = true.

(** The issues a list of messages gives rise to: one for each message that
    has the text, read at its leftmost place, and none for the others. *)
Inductive issues_of : list pystr -> list invalid -> Prop :=
| issues_nil : issues_of [] []
| issues_keep e pre f t rest l :
    cannot_query_at e pre f t ->
    (forall pre' f' t', cannot_query_at e pre' f' t' ->
                        length pre <= length pre') ->
    issues_of rest l ->
    issues_of (e :: rest) (mkInvalid f t :: l)
| issues_drop e rest l :
    (forall pre f t, ~ cannot_query_at e pre f t) ->
    issues_of rest l ->
    issues_of (e :: rest) l.

(** The shape of a database that holds a schema: no relationship twice,
    every field under the type it names as parent, at most one relation
    target for a field of a type, and no type with an empty name as a
    target. *)
Record schema_like (g : Store) : Prop := {
  sl_nodup : NoDup (rels g);
  sl_parent : forall t f p, In (HAS_FIELD t f p) (rels g) -> p = t;
  sl_target : forall s d d' f,
      In (HAS_RELATION s d f) (rels g) ->
      In (HAS_RELATION s d' f) (rels g) -> d = d';
  sl_named : forall s d f, In (HAS_RELATION s d f) (rels g) -> d <> []
}.

(** Strictly before, in the lexicographic order. *)
Definition lex_lt (a b : pystr) : Prop := PyStr.leb a b = true /\ a <> b.

(** The line of the snippet for field [f] of type [t]. *)
Inductive line_of (g : Store) (t f : pystr) : pystr -> Prop :=
| line_relation d :
    In (HAS_RELATION t d f) (rels g) ->
    line_of g t f (py "  " ++ f ++ py ": [" ++ d ++ py "]")
| line_plain :
    (forall d, ~ In (HAS_RELATION t d f) (rels g)) ->
    line_of g t f (py "  " ++ f).

(** The text of the snippet of type [t]: the opening line, the lines of
    the fields of [t] in increasing order of their names, the closing
    line. *)
Definition snippet_of (g : Store) (t : pystr) (text : pystr) : Prop :=
  exists fields lines,
    text = join [NL] ([py "type " ++ t ++ py " {"] ++ lines ++ [py "}"])
    /\ Forall2 (line_of g t) fields lines
    /\ StronglySorted lex_lt fields
    /\ (forall f, In f fields <-> In (HAS_FIELD t f t) (rels g)).

(** The statements of the dict comprehension over [invalids]. *)
Definition fields_queries (invalids : list invalid) : list cypher :=
  map (fun inv => MATCH_FIELDS (inv_type inv)) invalids.


(** The characters that [field_type_name] removes. *)
Definition is_wrapper (c : N) : bool :=
  ((c =? 33) || (c =? 91) || (c =? 93))%N.

(** ** What a run leaves in the log *)

Definition predicts (l : list event) : list (pystr * pystr) :=
  flat_map (fun e => match e with EvPredict p r => [(p, r)] | _ => [] end) l.

Definition validations (l : list event) : list (pystr * list pystr) :=
  flat_map (fun e => match e with EvValidate q es => [(q, es)] | _ => [] end) l.

Definition queries (l : list event) : list cypher :=
  flat_map (fun e => match e with EvQuery q => [q] | _ => [] end) l.

(** The last entry of a list. *)
Fixpoint final {A : Type} (l : list A) : option A :=
  match l with
  | [] => None
  | [x] => Some x
  | _ :: rest => final rest
  end.

(** ** The result objects of the entry point *)

Definition error_result (msg : pystr) : pyval :=
  PDict [ (py "error", PStr msg) ].

Definition raw_error_result (msg raw : pystr) : pyval :=
  PDict [ (py "error", PStr msg); (py "raw", PStr raw) ].

Definition query_result (query : pystr) (variables errors : pyval) : pyval :=
  PDict [ (py "query", PStr query); (py "variables", variables);
          (py "errors", errors) ].


(** What [run_inference] shows for each result of the entry point. *)
Inductive shown_for (user_intent : pystr) : pyval -> shown -> Prop :=
| shown_error msg :
    shown_for user_intent (error_result msg)
      (Shown user_intent PNone (PDict []) NO_ERRORS)
| shown_raw_error msg raw :
    shown_for user_intent (raw_error_result msg raw)
      (Shown user_intent PNone (PDict []) NO_ERRORS)
| shown_valid q v :
    shown_for user_intent (query_result q v (PDict []))
      (Shown user_intent (PStr q) v NO_ERRORS)
| shown_partial q v e errs :
    shown_for user_intent (query_result q v (PList (map PStr (e :: errs))))
      (Shown user_intent (PStr q) v (join [NL] (e :: errs))).



(** The database has a node: [is_graph_built] answers [True]. *)
Definition has_nodes (g : Store) : bool :=
  match nodes g with
  | [] => false
  | _ :: _ => true
  end.

Section WithHost.

Variable h : Host.

(** The state after the statements [qs] were sent. *)
Definition after_queries (qs : list cypher) (st : State h) : State h :=
  mkState (run_all qs (graph st)) (llm st) (log st ++ map EvQuery qs).

(** ** The run of the entry point *)

(** All the variables of [check_env_vars] are set and not empty. *)
Definition env_ok : bool :=
  forallb (fun var => negb (env_missing h var)) (NEO4J_VARS ++ LLM_VARS).

(** [open], [json.load] and [build_client_schema] in [validate_query]
    go through. *)
Definition validator_ready : bool :=
  match introspection_error h with
  | None => true
  | Some _ => false
  end.

(** The statements of steps 1 and 2 on a database that has a node: the
    count and the type names. *)
Definition startup_queries : list cypher := [COUNT_NODES; MATCH_TYPE_NAMES].

(** The prompt of the type inference and the reply of the provider. *)
Definition inference_prompt (user_intent : pystr) (g : Store) : pystr :=
  infer_prompt_0 ++ join (py ", ") (type_names g)
  ++ infer_prompt_1 ++ user_intent ++ infer_prompt_2.

Definition inference_reply (user_intent : pystr) (st : State h) : pystr :=
  fst (predict h (llm st) (inference_prompt user_intent (graph st))).

(** The type inference named two strings, and the path statement made of
    them is [SHORTEST_PATH]. *)
Definition inferred (user_intent : pystr) (max_hops : Z) (st : State h)
  (src dst : pystr) : Prop :=
  parse_types h (inference_reply user_intent st) = Ret (PStr src, PStr dst)
  /\ path_statement_ok src dst max_hops = true.

(** What holds when the correction loop, entered with [q], [v], [errs]
    and [left] retries, has ended with [fin] after the events [new]. *)
Definition loop_post (q : pystr) (v : pyval) (errs : list pystr)
  (left : nat) (new : list event) (fin : loop_end) : Prop :=
  match fin with
  | Exited q' v' errs' =>
      (errs' = [] \/ length (predicts new) = left)
      /\ ((new = [] /\ q' = q /\ v' = v /\ errs' = errs)
          \/ (exists p r,
                final (predicts new) = Some (p, r)
                /\ extract_query_and_vars h r = Ret (Some q', v')
                /\ final (validations new) = Some (q', errs')))
  | Returned res =>
      exists p r,
        final (predicts new) = Some (p, r)
        /\ res = raw_error_result (py "Correction step failed") r
        /\ forall q' v',
             extract_query_and_vars h r = Ret (Some q', v') ->
             truthy q' = false
  end.

(** What holds of the events [new] and the result [res] of steps 4 to 9,
    entered when a path was found. *)
Definition generation_post (max_retries : Z) (new : list event)
  (res : pyval) : Prop :=
  exists p0 r0 rest,
    predicts new = (p0, r0) :: rest
    /\ length rest <= Z.to_nat max_retries
    /\ ((rest = [] /\ validations new = []
         /\ res = raw_error_result (py "Invalid LLM output") r0)
        \/ (exists p r,
              rest <> [] /\ final rest = Some (p, r)
              /\ res = raw_error_result (py "Correction step failed") r
              /\ forall q v,
                   extract_query_and_vars h r = Ret (Some q, v) ->
                   truthy q = false)
        \/ (exists p r q v errs,
              final (predicts new) = Some (p, r)
              /\ extract_query_and_vars h r = Ret (Some q, v)
              /\ final (validations new) = Some (q, errs)
              /\ match errs with
                 | [] => res = query_result q v (PDict [])
                 | _ :: _ =>
                     res = query_result q v (PList (map PStr errs))
                     /\ length rest = Z.to_nat max_retries
                 end)).

(** The prompt of step 5 and the reply of the provider to it. *)
Definition generation_prompt (user_intent : pystr) (max_hops : Z)
  (g : Store) (src dst : pystr) : pystr :=
  graphql_prompt_format user_intent
    (join [NL] (map describe_path (shortest_paths g src dst max_hops)))
    (render_snippet src (snippet_rows g src)).

Definition generation_reply (user_intent : pystr) (max_hops : Z)
  (st : State h) (src dst : pystr) : pystr :=
  fst (predict h
         (snd (predict h (llm st) (inference_prompt user_intent (graph st))))
         (generation_prompt user_intent max_hops (graph st) src dst)).


End WithHost.

End Spec.

Import Spec.

(* ================================================================== *)
(** * A small world to run the pipeline in *)
(* ================================================================== *)

Module Sample.

(** A schema with two object types that refer to each other, two scalars
    and an introspection type. *)
Definition types : list (pystr * option (list (pystr * pystr))) :=
  [ (py "Workbook",
     Some [ (py "name", py "String"); (py "owner", py "TableauUser!") ]);
    (py "TableauUser",
     Some [ (py "id", py "ID!"); (py "workbooks", py "[Workbook!]!") ]);
    (py "String", None);
    (py "ID", None);
    (py "__Schema", Some [ (py "types", py "[__Type!]!") ]) ].

(** The reply that names [src] and [dst] as a JSON object. *)
Definition types_reply (src dst : pystr) : pystr :=
  py "{" ++ [DQUOTE] ++ py "src_type" ++ [DQUOTE] ++ py ": " ++ [DQUOTE]
  ++ src ++ [DQUOTE] ++ py ", " ++ [DQUOTE] ++ py "dst_type" ++ [DQUOTE]
  ++ py ": " ++ [DQUOTE] ++ dst ++ [DQUOTE] ++ py "}".

(** The same reply without its braces. *)
Definition types_inner (src dst : pystr) : pystr :=
  [DQUOTE] ++ py "src_type" ++ [DQUOTE] ++ py ": " ++ [DQUOTE]
  ++ src ++ [DQUOTE] ++ py ", " ++ [DQUOTE] ++ py "dst_type" ++ [DQUOTE]
  ++ py ": " ++ [DQUOTE] ++ dst ++ [DQUOTE].

(** A [json.loads] that knows the few documents of the samples. *)
Definition loads (s : pystr) : option pyval :=
  if PyStr.eqb s (types_reply (py "Workbook") (py "TableauUser")) then
    Some (PDict [ (py "src_type", PStr (py "Workbook"));
                  (py "dst_type", PStr (py "TableauUser")) ])
  else if PyStr.eqb s (types_reply (py "String") (py "Workbook")) then
    Some (PDict [ (py "src_type", PStr (py "String"));
                  (py "dst_type", PStr (py "Workbook")) ])
  else if PyStr.eqb s (py "{}") then Some (PDict [])
  else None.

(** A validator that rejects the field [owners] and accepts the rest. *)
Definition check (query : pystr) : list pystr + pystr :=
  match Re.search (Re.lit (py "owners") Re.accept) query with
  | Some _ =>
      inl [ py "Cannot query field 'owners' on type 'Workbook'. Did you mean 'owner'?" ]
  | None => inl []
  end.

(** The provider answers with the replies it was given, in turn. *)
Definition scripted (replies : list pystr) (prompt : pystr)
  : pystr * list pystr :=
  match replies with
  | r :: rest => (r, rest)
  | [] => ([], [])
  end.

(** A database that refuses every text that is not one of the statements
    of the model. *)
Definition refuse (src dst : pystr) (max_hops : Z) (g : Store)
  : outcome (list path_row) * Store :=
  (Raise (ValueError (py "Invalid input")), g).

Definition host (env_set : bool) : Host :=
  mkHost (list pystr) scripted loads (fun _ => py "?") check
    (fun _ => if env_set then Some (py "set") else None) types
    None None refuse.


(** A database that holds the object types of [types], their fields and
    the relations between them. *)
Definition imported : Store :=
  Eval vm_compute in
    run_all
      [ MERGE_TYPE (py "Workbook");
        MERGE_FIELD (py "name") (py "Workbook");
        MERGE_RELATION (py "Workbook") (py "String") (py "name");
        MERGE_FIELD (py "owner") (py "Workbook");
        MERGE_RELATION (py "Workbook") (py "TableauUser") (py "owner");
        MERGE_TYPE (py "TableauUser");
        MERGE_FIELD (py "id") (py "TableauUser");
        MERGE_RELATION (py "TableauUser") (py "ID") (py "id");
        MERGE_FIELD (py "workbooks") (py "TableauUser");
        MERGE_RELATION (py "TableauUser") (py "Workbook") (py "workbooks") ]
      Neo4j.empty.

(** A state with that database. *)
Definition loaded (replies : list pystr) : State (host true) :=
  @mkState (host true) imported replies [].

Definition fenced_query (body : pystr) : pystr :=
  py "```graphql" ++ [NL] ++ body ++ [NL] ++ py "```".

Definition intent : pystr := py "Get all workbooks owned by user Jane Doe".

(** A reply with a query the validator accepts, and one it rejects. *)
Definition good_reply : pystr :=
  fenced_query (py "query { workbooks { name owner { id } } }").

Definition bad_reply : pystr :=
  fenced_query (py "query { workbooks { name owners { id } } }").


End Sample.

(* ================================================================== *)
(** * Facts about strings *)
(* ================================================================== *)

Module PyStrFacts.

Lemma eqb_eq (a b : pystr) : PyStr.eqb a b = true <-> a = b.
Proof.
  revert b; induction a as [|x a IH]; intros [|y b]; simpl;
    try (split; congruence).
  rewrite andb_true_iff, N.eqb_eq, IH. split.
  - intros [-> ->]; reflexivity.
  - intros E; inversion E; auto.
Qed.

Lemma eqb_refl (a : pystr) : PyStr.eqb a a = true.
Proof. apply eqb_eq; reflexivity. Qed.

Lemma eqb_neq (a b : pystr) : PyStr.eqb a b = false <-> a <> b.
Proof.
  rewrite <- eqb_eq. destruct (PyStr.eqb a b); split; congruence.
Qed.

Lemma node_eqb_eq (a b : node) : node_eqb a b = true <-> a = b.
Proof.
  destruct a, b; simpl; try (split; congruence).
  - rewrite eqb_eq; split; congruence.
  - rewrite andb_true_iff, !eqb_eq. split.
    + intros [-> ->]; reflexivity.
    + intros E; inversion E; auto.
Qed.

Lemma rel_eqb_eq (a b : rel) : rel_eqb a b = true <-> a = b.
Proof.
  destruct a, b; simpl; try (split; congruence);
    rewrite !andb_true_iff, !eqb_eq; (split;
      [ intros [[-> ->] ->]; reflexivity | intros E; inversion E; auto ]).
Qed.

Lemma existsb_node (n : node) (l : list node) :
  existsb (node_eqb n) l = true <-> In n l.
Proof.
  rewrite existsb_exists. split.
  - intros [x [Hin E]]. apply node_eqb_eq in E; subst; exact Hin.
  - intros Hin; exists n; split; [exact Hin | apply node_eqb_eq; reflexivity].
Qed.

Lemma existsb_rel (r : rel) (l : list rel) :
  existsb (rel_eqb r) l = true <-> In r l.
Proof.
  rewrite existsb_exists. split.
  - intros [x [Hin E]]. apply rel_eqb_eq in E; subst; exact Hin.
  - intros Hin; exists r; split; [exact Hin | apply rel_eqb_eq; reflexivity].
Qed.

End PyStrFacts.

Import PyStrFacts.

(* ================================================================== *)
(** * The database under MERGE *)
(* ================================================================== *)

Module StoreFacts.

Lemma update_read q g : is_read q = true -> update q g = g.
Proof. destruct q; simpl; congruence. Qed.

Lemma run_all_app qs qs' g :
  run_all (qs ++ qs') g = run_all qs' (run_all qs g).
Proof. unfold run_all. apply fold_left_app. Qed.

End StoreFacts.

Import StoreFacts.

(* ================================================================== *)
(** * neo4j_store.py: what the functions do to the state *)
(* ================================================================== *)

Module Neo4jStoreFacts.

Section WithHost.

Variable h : Host.

Lemma after_queries_nil (st : State h) : after_queries h [] st = st.
Proof.
  destruct st; unfold after_queries; simpl. rewrite app_nil_r. reflexivity.
Qed.

Lemma after_queries_app qs qs' (st : State h) :
  after_queries h (qs ++ qs') st
  = after_queries h qs' (after_queries h qs st).
Proof.
  unfold after_queries; simpl.
  rewrite run_all_app, map_app, app_assoc. reflexivity.
Qed.

Lemma graph_query_run q (st : State h) :
  graph_query q st = (Ret tt, after_queries h [q] st).
Proof. reflexivity. Qed.

Lemma is_graph_built_run (st : State h) :
  is_graph_built h false st
  = (Ret (0 <? count_nodes (graph st))%Z, after_queries h [COUNT_NODES] st).
Proof. reflexivity. Qed.



(** C10. In its default mode [is_graph_built] sends one statement, a
    reading one, and leaves the database as it was; with [rebuild=True] it
    sends the deleting statement, after which the database is empty, and
    answers [False]. *)
Theorem is_graph_built_read_only (st : State h) :
  (exists q b,
      is_graph_built h false st
      = (Ret b, mkState (graph st) (llm st) (log st ++ [EvQuery q]))
      /\ is_read q = true
      /\ (b = true <-> nodes (graph st) <> []))
  /\ is_graph_built h true st
     = (Ret false,
        mkState Neo4j.empty (llm st) (log st ++ [EvQuery DETACH_DELETE_ALL]))
  /\ is_read DETACH_DELETE_ALL = false.
Proof.
  split; [|split; reflexivity].
  exists COUNT_NODES, (0 <? count_nodes (graph st))%Z.
  split; [reflexivity|]. split; [reflexivity|].
  unfold count_nodes. rewrite Z.ltb_lt.
  destruct (nodes (graph st)); simpl; split; intros H;
    try congruence; try lia.
Qed.

End WithHost.

End Neo4jStoreFacts.

Import Neo4jStoreFacts.

(* ================================================================== *)
(** * Facts about the matcher *)
(* ================================================================== *)

Module ReFacts.

Lemma strip_prefix_app p r : strip_prefix p (p ++ r) = Some r.
Proof.
  induction p as [|x p IH]; simpl; [reflexivity|].
  rewrite N.eqb_refl. exact IH.
Qed.

Lemma strip_prefix_Some p s r : strip_prefix p s = Some r -> s = p ++ r.
Proof.
  revert s; induction p as [|x p IH]; intros s H; simpl in *.
  - inversion H; reflexivity.
  - destruct s as [|y s]; [discriminate|].
    destruct (N.eqb_spec x y); [|discriminate].
    subst. f_equal. apply IH; exact H.
Qed.

Lemma strip_prefix_None p s :
  strip_prefix p s = None -> forall r, s <> p ++ r.
Proof.
  intros H r ->. rewrite strip_prefix_app in H. discriminate.
Qed.

Lemma lit_app p k r c : Re.lit p k (p ++ r) c = k r c.
Proof. unfold Re.lit. rewrite strip_prefix_app. reflexivity. Qed.

Lemma lit_Some p k s c x :
  Re.lit p k s c = Some x -> exists r, s = p ++ r /\ k r c = Some x.
Proof.
  unfold Re.lit. destruct (strip_prefix p s) as [r|] eqn:E; [|discriminate].
  intros H. exists r. split; [apply strip_prefix_Some; exact E | exact H].
Qed.

Lemma lit_cons_mismatch x p k y t c :
  x <> y -> Re.lit (x :: p) k (y :: t) c = None.
Proof.
  intros Hne. unfold Re.lit; simpl.
  destruct (N.eqb_spec x y); [contradiction | reflexivity].
Qed.

Lemma lit_nil_input x p k c : Re.lit (x :: p) k [] c = None.
Proof. reflexivity. Qed.

(** ** The lazy star over any character: a scan for the first suffix that
    the continuation accepts *)

Lemma star_lazy_None k s c :
  Re.star_lazy Re.any k s c = None ->
  forall a b, s = a ++ b -> k b c = None.
Proof.
  induction s as [|x s IH]; simpl; intros H a b E.
  - destruct (k [] c) eqn:K; [discriminate|].
    destruct a; [|discriminate]. simpl in E; subst. exact K.
  - destruct (k (x :: s) c) eqn:K; [discriminate|].
    destruct a as [|y a]; simpl in E.
    + subst. exact K.
    + inversion E; subst. eapply IH; [exact H | reflexivity].
Qed.

Lemma star_lazy_Some k s c r :
  Re.star_lazy Re.any k s c = Some r ->
  exists a b, s = a ++ b /\ k b c = Some r
    /\ forall a' b', s = a' ++ b' -> length a' < length a -> k b' c = None.
Proof.
  induction s as [|x s IH]; simpl; intros H.
  - destruct (k [] c) eqn:K; [|discriminate]. inversion H; subst.
    exists [], []. repeat split; auto. simpl; intros; lia.
  - destruct (k (x :: s) c) eqn:K.
    + inversion H; subst. exists [], (x :: s).
      repeat split; auto. simpl; intros; lia.
    + destruct (IH H) as (a & b & E & Kb & Hmin).
      exists (x :: a), b. subst s. repeat split; auto.
      intros [|y a'] b' E' Hlen; simpl in *.
      * subst. exact K.
      * inversion E'; subst. eapply Hmin; [eassumption | lia].
Qed.

Lemma star_lazy_intro k c a b r :
  k b c = Some r ->
  (forall a' b', a ++ b = a' ++ b' -> length a' < length a -> k b' c = None) ->
  Re.star_lazy Re.any k (a ++ b) c = Some r.
Proof.
  induction a as [|x a IH]; intros K Hmin.
  - simpl. destruct b; simpl; rewrite K; reflexivity.
  - simpl. rewrite (Hmin [] (x :: a ++ b) eq_refl); [|simpl; lia].
    apply IH; [exact K|].
    intros a' b' E Hlen. apply (Hmin (x :: a') b').
    + simpl; rewrite E; reflexivity.
    + simpl; lia.
Qed.

Lemma search_as_scan m s :
  Re.search m s = Re.star_lazy Re.any (fun s' _ => m s' []) s [].
Proof.
  induction s as [|x s IH]; simpl.
  - destruct (m [] []); reflexivity.
  - destruct (m (x :: s) []); [reflexivity | exact IH].
Qed.

Lemma search_None m s :
  Re.search m s = None -> forall a b, s = a ++ b -> m b [] = None.
Proof.
  rewrite search_as_scan. intros H a b E.
  exact (star_lazy_None _ _ _ H a b E).
Qed.

Lemma search_Some m s r :
  Re.search m s = Some r ->
  exists a b, s = a ++ b /\ m b [] = Some r
    /\ forall a' b', s = a' ++ b' -> length a' < length a -> m b' [] = None.
Proof.
  intros H. rewrite search_as_scan in H.
  apply star_lazy_Some in H. exact H.
Qed.

Lemma search_intro m a b r :
  m b [] = Some r ->
  (forall a' b', a ++ b = a' ++ b' -> length a' < length a -> m b' [] = None) ->
  Re.search m (a ++ b) = Some r.
Proof.
  intros K Hmin. rewrite search_as_scan.
  apply star_lazy_intro; assumption.
Qed.

(** ** The greedy star before something the class excludes *)

Lemma take_drop_while f s : take_while f s ++ drop_while f s = s.
Proof.
  induction s as [|x s IH]; simpl; [reflexivity|].
  destruct (f x); simpl; [rewrite IH|]; reflexivity.
Qed.

Lemma take_while_all f s : forallb f (take_while f s) = true.
Proof.
  induction s as [|x s IH]; simpl; [reflexivity|].
  destruct (f x) eqn:E; simpl; [rewrite E, IH|]; reflexivity.
Qed.

Lemma take_while_app f a x b :
  forallb f a = true -> f x = false -> take_while f (a ++ x :: b) = a.
Proof.
  induction a as [|y a IH]; simpl; intros Ha Hx.
  - rewrite Hx; reflexivity.
  - apply andb_true_iff in Ha as [Hy Ha]. rewrite Hy, IH; auto.
Qed.

Lemma drop_while_app f a x b :
  forallb f a = true -> f x = false -> drop_while f (a ++ x :: b) = x :: b.
Proof.
  induction a as [|y a IH]; simpl; intros Ha Hx.
  - rewrite Hx; reflexivity.
  - apply andb_true_iff in Ha as [Hy Ha]. rewrite Hy, IH; auto.
Qed.

Lemma firstn_consumed (a b : pystr) :
  firstn (length (a ++ b) - length b) (a ++ b) = a.
Proof.
  rewrite length_app.
  replace (length a + length b - length b) with (length a) by lia.
  rewrite firstn_app, Nat.sub_diag, firstn_all. simpl.
  apply app_nil_r.
Qed.

Lemma firstn_drop_while f s :
  firstn (length s - length (drop_while f s)) s = take_while f s.
Proof.
  rewrite <- (take_drop_while f s) at 1 3.
  apply firstn_consumed.
Qed.

Lemma star_greedy_det cls k :
  (forall x t c, cls x = true -> k (x :: t) c = None) ->
  forall s c, Re.star_greedy cls k s c = k (drop_while cls s) c.
Proof.
  intros Hk. induction s as [|x s IH]; intros c; simpl; [reflexivity|].
  destruct (cls x) eqn:E; [|reflexivity].
  rewrite IH. destruct (k (drop_while cls s) c) eqn:K; [reflexivity|].
  apply Hk; exact E.
Qed.

End ReFacts.

Import ReFacts.

(* ================================================================== *)
(** * validation.py: the issues read off the validator's messages *)
(* ================================================================== *)

Module ValidationFacts.

Lemma not_quote_head f :
  f <> [] -> forallb Re.not_quote f = true ->
  exists x f', f = x :: f' /\ Re.not_quote x = true.
Proof.
  destruct f as [|x f']; [congruence|]. simpl.
  intros _ H. apply andb_true_iff in H as [H _]. eauto.
Qed.

(** [([^']+)] in front of a literal that starts with a quote takes the
    longest run without a quote, which must not be empty. *)
Lemma group_plus_not_quote p k s c :
  Re.group (Re.plus_greedy Re.not_quote) (Re.lit (QUOTE :: p) k) s c
  = match s with
    | x :: _ =>
        if Re.not_quote x
        then Re.lit (QUOTE :: p) k (drop_while Re.not_quote s)
               (c ++ [take_while Re.not_quote s])
        else None
    | [] => None
    end.
Proof.
  unfold Re.group, Re.plus_greedy. destruct s as [|x t]; [reflexivity|].
  destruct (Re.not_quote x) eqn:E; [|reflexivity].
  rewrite star_greedy_det.
  - rewrite <- (firstn_drop_while Re.not_quote (x :: t)).
    simpl drop_while. rewrite E. reflexivity.
  - intros y t' c' Hy. apply lit_cons_mismatch.
    intros <-. discriminate Hy.
Qed.

Lemma P2_quote : py "' on type '" = QUOTE :: py " on type '".
Proof. reflexivity. Qed.

Lemma P3_quote : py "'" = QUOTE :: [].
Proof. reflexivity. Qed.

Lemma match_here_sound s c :
  re_cannot_query Re.accept s [] = Some c ->
  exists f t, c = [f; t] /\ cannot_query_at s [] f t.
Proof.
  unfold re_cannot_query. intros H.
  apply lit_Some in H as (r & -> & H).
  rewrite P2_quote, group_plus_not_quote in H.
  destruct r as [|x r']; [discriminate|].
  destruct (Re.not_quote x) eqn:Ex; [|discriminate].
  apply lit_Some in H as (r2 & E2 & H).
  rewrite P3_quote, group_plus_not_quote in H.
  destruct r2 as [|y r2']; [discriminate|].
  destruct (Re.not_quote y) eqn:Ey; [|discriminate].
  apply lit_Some in H as (post & E3 & H).
  unfold Re.accept in H. inversion H; subst c; clear H.
  exists (take_while Re.not_quote (x :: r')),
         (take_while Re.not_quote (y :: r2')).
  split; [reflexivity|]. unfold cannot_query_at.
  split; [|repeat split].
  - exists post. rewrite app_nil_l. f_equal.
    rewrite P2_quote, P3_quote.
    rewrite <- (take_drop_while Re.not_quote (x :: r')) at 1.
    rewrite E2. f_equal. f_equal.
    rewrite <- (take_drop_while Re.not_quote (y :: r2')) at 1.
    rewrite E3. reflexivity.
  - simpl. rewrite Ex. discriminate.
  - simpl. rewrite Ey. discriminate.
  - apply take_while_all.
  - apply take_while_all.
Qed.

Lemma group_plus_not_quote_app p k f rest c :
  f <> [] -> forallb Re.not_quote f = true ->
  Re.group (Re.plus_greedy Re.not_quote) (Re.lit (QUOTE :: p) k)
    (f ++ (QUOTE :: p) ++ rest) c
  = k rest (c ++ [f]).
Proof.
  intros Hf Qf. rewrite group_plus_not_quote.
  destruct (not_quote_head f Hf Qf) as (x & f' & Ef & Hx).
  assert (Hq : Re.not_quote QUOTE = false) by reflexivity.
  change ((QUOTE :: p) ++ rest) with (QUOTE :: (p ++ rest)).
  rewrite (drop_while_app _ f QUOTE (p ++ rest) Qf Hq).
  rewrite (take_while_app _ f QUOTE (p ++ rest) Qf Hq).
  change (QUOTE :: (p ++ rest)) with ((QUOTE :: p) ++ rest).
  rewrite lit_app. subst f. simpl. rewrite Hx. reflexivity.
Qed.

Lemma match_here_complete s f t :
  cannot_query_at s [] f t ->
  re_cannot_query Re.accept s [] = Some [f; t].
Proof.
  intros ((post & ->) & Hf & Ht & Qf & Qt).
  unfold re_cannot_query. rewrite app_nil_l, lit_app.
  rewrite P2_quote, group_plus_not_quote_app by assumption.
  rewrite P3_quote, group_plus_not_quote_app by assumption.
  reflexivity.
Qed.

Lemma cannot_query_shift e pre f t :
  cannot_query_at e pre f t <->
  exists suf, e = pre ++ suf /\ cannot_query_at suf [] f t.
Proof.
  unfold cannot_query_at. split.
  - intros ((post & E) & H). eexists. split; [exact E|].
    split; [exists post; reflexivity | exact H].
  - intros (suf & -> & (post & ->) & H).
    split; [exists post; reflexivity | exact H].
Qed.

Lemma search_sound e c :
  Re.search (re_cannot_query Re.accept) e = Some c ->
  exists pre f t,
    c = [f; t] /\ cannot_query_at e pre f t
    /\ forall pre' f' t', cannot_query_at e pre' f' t' ->
                          length pre <= length pre'.
Proof.
  intros H. apply search_Some in H as (a & b & -> & Hm & Hmin).
  apply match_here_sound in Hm as (f & t & -> & Hc).
  exists a, f, t. split; [reflexivity|]. split.
  - apply cannot_query_shift. eauto.
  - intros pre' f' t' Hc'.
    destruct (Nat.le_gt_cases (length a) (length pre')) as [|Hlt]; [assumption|].
    apply cannot_query_shift in Hc' as (suf & E & Hc').
    apply match_here_complete in Hc'.
    rewrite (Hmin pre' suf E Hlt) in Hc'. discriminate.
Qed.

Lemma search_none e :
  Re.search (re_cannot_query Re.accept) e = None ->
  forall pre f t, ~ cannot_query_at e pre f t.
Proof.
  intros H pre f t Hc.
  apply cannot_query_shift in Hc as (suf & E & Hc).
  apply match_here_complete in Hc.
  rewrite (search_None _ _ H pre suf E) in Hc. discriminate.
Qed.

Lemma extract_invalids_issues errors :
  issues_of errors (extract_invalids errors).
Proof.
  induction errors as [|e rest IH]; simpl; [constructor|].
  destruct (Re.search (re_cannot_query Re.accept) e) as [c|] eqn:E.
  - apply search_sound in E as (pre & f & t & -> & Hc & Hmin).
    simpl. eapply issues_keep; eauto.
  - apply issues_drop; [apply search_none; exact E | exact IH].
Qed.

Lemma extract_invalids_none errors :
  (forall e, In e errors -> forall pre f t, ~ cannot_query_at e pre f t) ->
  extract_invalids errors = [].
Proof.
  induction errors as [|e rest IH]; simpl; intros H; [reflexivity|].
  destruct (Re.search (re_cannot_query Re.accept) e) as [c|] eqn:E.
  - apply search_sound in E as (pre & f & t & _ & Hc & _).
    exfalso. eapply H; eauto.
  - apply IH. intros; eapply H; eauto.
Qed.

(** The prompt when no issue was extracted: the three opening lines and
    the closing instruction, no feedback in between. *)
Lemma build_correction_prompt_no_issue intent query m :
  build_correction_prompt intent query [] m
  = Ret (join [NL; NL]
      [ py "The previously generated GraphQL query failed validation.";
        py "User intent: " ++ intent;
        py "Original query:" ++ [NL] ++ py "```graphql" ++ [NL]
          ++ query ++ [NL] ++ py "```";
        py "Return only the corrected query in a ```graphql ... ``` block and variables in ```json ... ```." ]).
Proof. reflexivity. Qed.

(** C7. [extract_invalids] gives one issue, with the field and the type
    named at the leftmost place of the text, for each message that says a
    field cannot be queried on a type, and nothing for any other message;
    when no message says so there is no issue at all, and the correction
    prompt is then built without any feedback block, for whatever map of
    allowed fields. *)
Theorem extract_invalids_spec (errors : list pystr) (intent query : pystr) :
  issues_of errors (extract_invalids errors)
  /\ ((forall e, In e errors ->
                 forall pre f t, ~ cannot_query_at e pre f t) ->
      extract_invalids errors = []
      /\ forall m,
           build_correction_prompt intent query (extract_invalids errors) m
           = Ret (join [NL; NL]
               [ py "The previously generated GraphQL query failed validation.";
                 py "User intent: " ++ intent;
                 py "Original query:" ++ [NL] ++ py "```graphql" ++ [NL]
                   ++ query ++ [NL] ++ py "```";
                 py "Return only the corrected query in a ```graphql ... ``` block and variables in ```json ... ```." ])).
Proof.
  split; [apply extract_invalids_issues|].
  intros Hnone. rewrite (extract_invalids_none errors Hnone).
  split; [reflexivity|]. intros m. apply build_correction_prompt_no_issue.
Qed.

(** A list with one message of another shape, and a list that mixes both. *)
Lemma extract_invalids_spec_witness :
  extract_invalids [py "Syntax Error: Expected Name, found <EOF>."] = []
  /\ extract_invalids
       [ py "Syntax Error: Unexpected Name.";
         py "Cannot query field 'owner' on type 'Workbook'. Did you mean 'owners'?" ]
     = [ mkInvalid (py "owner") (py "Workbook") ].
Proof.
  split.
  - apply (extract_invalids_spec
             [py "Syntax Error: Expected Name, found <EOF>."] [] []).
    intros e [<-|[]]. apply search_none. vm_compute. reflexivity.
  - vm_compute. reflexivity.
Defined.

End ValidationFacts.

Import ValidationFacts.

(* ================================================================== *)
(** * The schema snippet *)
(* ================================================================== *)

Module SnippetFacts.

Lemma leb_refl a : PyStr.leb a a = true.
Proof.
  induction a as [|x a IH]; simpl; [reflexivity|].
  rewrite N.ltb_irrefl, N.eqb_refl. exact IH.
Qed.

Lemma leb_total a b : PyStr.leb a b = true \/ PyStr.leb b a = true.
Proof.
  revert b; induction a as [|x a IH]; intros [|y b]; simpl; auto.
  destruct (N.ltb_spec x y), (N.ltb_spec y x); auto; try lia.
  assert (x = y) by lia. subst. rewrite N.eqb_refl. apply IH.
Qed.

Lemma leb_antisym a b :
  PyStr.leb a b = true -> PyStr.leb b a = true -> a = b.
Proof.
  revert b; induction a as [|x a IH]; intros [|y b]; simpl;
    try congruence.
  destruct (N.ltb_spec x y), (N.ltb_spec y x); try lia.
  - destruct (N.eqb_spec y x); [lia | discriminate].
  - destruct (N.eqb_spec x y); [lia | discriminate].
  - assert (x = y) by lia. subst. rewrite N.eqb_refl.
    intros H1 H2. f_equal. apply IH; assumption.
Qed.

Lemma leb_trans a b c :
  PyStr.leb a b = true -> PyStr.leb b c = true -> PyStr.leb a c = true.
Proof.
  revert b c; induction a as [|x a IH]; intros [|y b] [|z c]; simpl;
    try congruence.
  destruct (N.ltb_spec x y), (N.ltb_spec y z), (N.ltb_spec x z);
    try reflexivity; try lia;
    destruct (N.eqb_spec x y), (N.eqb_spec y z), (N.eqb_spec x z);
    try congruence; try lia.
  apply IH.
Qed.

(** ** Ordering the rows *)

Lemma insert_row_perm r l : Permutation (r :: l) (insert_row r l).
Proof.
  induction l as [|x l IH]; simpl; [reflexivity|].
  destruct (PyStr.leb (fst r) (fst x)); [reflexivity|].
  rewrite perm_swap. apply perm_skip. exact IH.
Qed.

Lemma order_by_field_perm l : Permutation l (order_by_field l).
Proof.
  induction l as [|x l IH]; simpl; [constructor|].
  rewrite <- insert_row_perm. apply perm_skip. exact IH.
Qed.

Lemma insert_row_sorted r l :
  StronglySorted row_le l -> StronglySorted row_le (insert_row r l).
Proof.
  induction l as [|x l IH]; simpl; intros Hs.
  - repeat constructor.
  - destruct (PyStr.leb (fst r) (fst x)) eqn:E.
    + constructor; [exact Hs|]. constructor; [exact E|].
      apply StronglySorted_inv in Hs as [_ Hall].
      eapply Forall_impl; [|exact Hall].
      intros y Hy. unfold row_le in *. eapply leb_trans; eauto.
    + apply StronglySorted_inv in Hs as [Hs Hall].
      constructor; [apply IH; exact Hs|].
      eapply Permutation_Forall; [apply insert_row_perm|].
      constructor; [|exact Hall].
      unfold row_le. destruct (leb_total (fst r) (fst x)); congruence.
Qed.

Lemma order_by_field_sorted l : StronglySorted row_le (order_by_field l).
Proof.
  induction l as [|x l IH]; simpl; [constructor|].
  apply insert_row_sorted; exact IH.
Qed.

(** With all keys different there is one way to order the rows. *)
Lemma sorted_unique (l1 l2 : list snippet_row) :
  NoDup (map fst l1) -> Permutation l1 l2 ->
  StronglySorted row_le l1 -> StronglySorted row_le l2 -> l1 = l2.
Proof.
  revert l2; induction l1 as [|x l1 IH]; intros l2 Hnd Hp S1 S2.
  - apply Permutation_nil in Hp. congruence.
  - destruct l2 as [|y l2].
    + apply Permutation_sym, Permutation_nil in Hp. discriminate.
    + assert (Hxy : x = y).
      { apply StronglySorted_inv in S1 as [_ A1].
        apply StronglySorted_inv in S2 as [_ A2].
        assert (Hx : In x (y :: l2))
          by (eapply Permutation_in; [exact Hp | left; reflexivity]).
        assert (Hy : In y (x :: l1))
          by (eapply Permutation_in;
              [apply Permutation_sym; exact Hp | left; reflexivity]).
        destruct Hx as [Hx|Hx]; [congruence|].
        destruct Hy as [Hy|Hy]; [congruence|].
        rewrite Forall_forall in A1, A2.
        assert (K : fst x = fst y)
          by (apply leb_antisym; [apply A1 | apply A2]; assumption).
        exfalso. simpl in Hnd. apply NoDup_cons_iff in Hnd as [Hnot _].
        apply Hnot. rewrite K. apply in_map. exact Hy. }
      subst y. f_equal. apply IH.
      * simpl in Hnd. apply NoDup_cons_iff in Hnd as [_ Hnd]. exact Hnd.
      * eapply Permutation_cons_inv; exact Hp.
      * apply StronglySorted_inv in S1 as [S1 _]. exact S1.
      * apply StronglySorted_inv in S2 as [S2 _]. exact S2.
Qed.

Lemma sorted_strict (l : list snippet_row) :
  NoDup (map fst l) -> StronglySorted row_le l ->
  StronglySorted lex_lt (map fst l).
Proof.
  induction l as [|x l IH]; simpl; intros Hnd Hs; [constructor|].
  apply NoDup_cons_iff in Hnd as [Hnot Hnd].
  apply StronglySorted_inv in Hs as [Hs Hall].
  constructor; [apply IH; assumption|].
  rewrite Forall_forall in *. intros k Hk.
  apply in_map_iff in Hk as (y & <- & Hy). split.
  - apply Hall; exact Hy.
  - intros E. apply Hnot. rewrite E. apply in_map. exact Hy.
Qed.

(** ** The rows of a database that holds a schema *)

Lemma in_field_names g t f :
  In f (field_names g t) <-> exists p, In (HAS_FIELD t f p) (rels g).
Proof.
  unfold field_names. rewrite in_flat_map. split.
  - intros ([t' f' p|] & Hin & Hf); [|contradiction].
    destruct (PyStr.eqb t' t) eqn:E; [|contradiction].
    apply eqb_eq in E. destruct Hf as [<-|[]]. subst. eauto.
  - intros (p & Hin). exists (HAS_FIELD t f p). split; [exact Hin|].
    rewrite eqb_refl. left; reflexivity.
Qed.

Lemma in_relation_targets g t f d :
  In d (relation_targets g t f) <-> In (HAS_RELATION t d f) (rels g).
Proof.
  unfold relation_targets. rewrite in_flat_map. split.
  - intros ([|s d' fld] & Hin & Hf); [contradiction|].
    destruct (PyStr.eqb s t) eqn:E1; [|contradiction].
    destruct (PyStr.eqb fld f) eqn:E2; [|contradiction].
    apply eqb_eq in E1, E2. destruct Hf as [<-|[]]. subst. exact Hin.
  - intros Hin. exists (HAS_RELATION t d f). split; [exact Hin|].
    rewrite !eqb_refl. left; reflexivity.
Qed.

Lemma field_names_nodup g t :
  NoDup (rels g) -> (forall t f p, In (HAS_FIELD t f p) (rels g) -> p = t) ->
  NoDup (field_names g t).
Proof.
  unfold field_names. induction (rels g) as [|r l IH]; simpl; intros Hnd Hp.
  - constructor.
  - apply NoDup_cons_iff in Hnd as [Hnot Hnd].
    assert (IH' := IH Hnd (fun t f p H => Hp t f p (or_intror H))).
    destruct r as [t' f p|]; [|exact IH'].
    destruct (PyStr.eqb t' t) eqn:E; [|exact IH'].
    apply eqb_eq in E; subst t'. simpl. constructor; [|exact IH'].
    intros Hin. apply in_flat_map in Hin as ([t'' f'' p''|] & Hin & Hf);
      [|contradiction].
    destruct (PyStr.eqb t'' t) eqn:E'; [|contradiction].
    apply eqb_eq in E'; subst t''. destruct Hf as [<-|[]].
    assert (p = t) by (apply (Hp t f'' p); left; reflexivity).
    assert (p'' = t) by (apply (Hp t f'' p''); right; exact Hin).
    subst. contradiction.
Qed.

Lemma relation_targets_nodup g t f :
  NoDup (rels g) -> NoDup (relation_targets g t f).
Proof.
  unfold relation_targets. induction (rels g) as [|r l IH]; simpl; intros Hnd.
  - constructor.
  - apply NoDup_cons_iff in Hnd as [Hnot Hnd].
    destruct r as [|s d fld]; [exact (IH Hnd)|].
    destruct (PyStr.eqb s t && PyStr.eqb fld f) eqn:E; [|exact (IH Hnd)].
    apply andb_true_iff in E as [E1 E2]. apply eqb_eq in E1, E2. subst.
    simpl. constructor; [|exact (IH Hnd)].
    intros Hin. apply Hnot.
    apply in_flat_map in Hin as ([|s' d' fld'] & Hin & Hf); [contradiction|].
    destruct (PyStr.eqb s' t && PyStr.eqb fld' f) eqn:E; [|contradiction].
    apply andb_true_iff in E as [E1 E2]. apply eqb_eq in E1, E2. subst.
    destruct Hf as [<-|[]]. exact Hin.
Qed.

(** At most one target: the list of targets has at most one entry. *)
Lemma relation_targets_short g t f :
  schema_like g ->
  relation_targets g t f = []
  \/ exists d, relation_targets g t f = [d].
Proof.
  intros W. pose proof (relation_targets_nodup g t f (sl_nodup g W)) as Hnd.
  destruct (relation_targets g t f) as [|d [|d' l]] eqn:E; eauto.
  exfalso.
  assert (H1 : In d (relation_targets g t f)) by (rewrite E; simpl; auto).
  assert (H2 : In d' (relation_targets g t f)) by (rewrite E; simpl; auto).
  apply in_relation_targets in H1, H2.
  pose proof (sl_target g W _ _ _ _ H1 H2). subst d'.
  apply NoDup_cons_iff in Hnd as [Hnot _]. apply Hnot. left; reflexivity.
Qed.

Lemma snippet_matches_keys g t :
  schema_like g -> map fst (snippet_matches g t) = field_names g t.
Proof.
  intros W. unfold snippet_matches.
  induction (field_names g t) as [|f l IH]; [reflexivity|].
  cbn [flat_map]. rewrite map_app, IH.
  destruct (relation_targets_short g t f W) as [E|[d E]]; rewrite E;
    reflexivity.
Qed.

Lemma snippet_line_of g t row :
  schema_like g -> In row (snippet_matches g t) ->
  line_of g t (fst row) (snippet_line row).
Proof.
  intros W Hin. unfold snippet_matches in Hin.
  apply in_flat_map in Hin as (f & Hf & Hin).
  destruct (relation_targets g t f) as [|d l] eqn:E.
  - destruct Hin as [<-|[]]. cbn [fst snippet_line]. apply line_plain.
    intros d Hd. apply in_relation_targets in Hd. rewrite E in Hd.
    contradiction.
  - apply in_map_iff in Hin as (d' & <- & Hd').
    rewrite <- E in Hd'. apply in_relation_targets in Hd'.
    pose proof (sl_named g W _ _ _ Hd') as Hne.
    destruct d' as [|c d']; [congruence|]. cbn [fst snippet_line truthy].
    apply line_relation. exact Hd'.
Qed.

Lemma lines_of g t rows :
  (forall row, In row rows -> line_of g t (fst row) (snippet_line row)) ->
  Forall2 (line_of g t) (map fst rows) (map snippet_line rows).
Proof.
  induction rows as [|r rows IH]; simpl; intros H; constructor.
  - apply H; left; reflexivity.
  - apply IH. intros; apply H; right; assumption.
Qed.

Section WithHost.

Variable h : Host.

(** C8. On a database that holds a schema, the snippet of type [t] is the
    line [type t {], then one line for each field of [t], in strictly
    increasing order of the field names, [  f: [d]] when [f] has the
    relation target [d] and [  f] otherwise, then the line [}].  The text
    does not depend on the order in which the database returns rows with
    [ORDER BY f.name], and a second call, the database unchanged, gives the
    same text again. *)
Theorem get_schema_snippet_spec (t : pystr) (st : State h) :
  schema_like (graph st) ->
  exists text,
    snippet_of (graph st) t text
    /\ (forall rows, ordered_rows (graph st) t rows ->
                     render_snippet t rows = text)
    /\ get_schema_snippet h (PStr t) st
       = (Ret text, after_queries h [MATCH_SNIPPET (PStr t)] st)
    /\ fst (get_schema_snippet h (PStr t)
              (snd (get_schema_snippet h (PStr t) st)))
       = Ret text.
Proof.
  intros W. set (g := graph st).
  assert (Hkeys : NoDup (map fst (snippet_matches g t))).
  { rewrite (snippet_matches_keys g t W).
    apply field_names_nodup; [apply (sl_nodup g W) | apply (sl_parent g W)]. }
  assert (Hcanon : forall rows, ordered_rows g t rows ->
                                rows = snippet_rows g t).
  { intros rows [Hp Hs]. apply sorted_unique; auto.
    - rewrite <- Hp. exact Hkeys.
    - rewrite <- Hp. apply order_by_field_perm.
    - apply order_by_field_sorted. }
  exists (render_snippet t (snippet_rows g t)).
  split; [|split; [|split]].
  - exists (map fst (snippet_rows g t)), (map snippet_line (snippet_rows g t)).
    split; [reflexivity|]. split; [|split].
    + apply lines_of. intros row Hin. apply snippet_line_of; [exact W|].
      eapply Permutation_in; [|exact Hin].
      apply Permutation_sym, order_by_field_perm.
    + apply sorted_strict; [|apply order_by_field_sorted].
      eapply Permutation_NoDup; [|exact Hkeys].
      apply Permutation_map, order_by_field_perm.
    + intros f. unfold snippet_rows.
      rewrite <- (Permutation_map fst (order_by_field_perm _)
                  : Permutation _ _) by idtac.
      rewrite (snippet_matches_keys g t W), in_field_names. split.
      * intros (p & Hin). rewrite <- (sl_parent g W _ _ _ Hin) at 2.
        exact Hin.
      * eauto.
  - intros rows Hr. rewrite (Hcanon rows Hr). reflexivity.
  - reflexivity.
  - reflexivity.
Qed.

End WithHost.

Ltac in_cases H :=
  repeat (destruct H as [H|H]; [try discriminate H|]); try contradiction H.

Lemma imported_schema_like : schema_like Sample.imported.
Proof.
  constructor.
  - unfold Sample.imported; cbn [rels].
    repeat (constructor; [cbn [In]; intuition discriminate|]). constructor.
  - intros t f p H. unfold Sample.imported in H; cbn [rels] in H.
    in_cases H; inversion H; reflexivity.
  - intros s d d' f H H'. unfold Sample.imported in H, H'; cbn [rels] in H, H'.
    in_cases H; inversion H; subst; clear H;
      in_cases H'; inversion H'; reflexivity.
  - intros s d f H. unfold Sample.imported in H; cbn [rels] in H.
    in_cases H; inversion H; discriminate.
Qed.

(** The snippet of [Workbook] in the sample database. *)
Lemma get_schema_snippet_spec_witness :
  schema_like Sample.imported
  /\ exists text,
      snippet_of Sample.imported (py "Workbook") text
      /\ fst (get_schema_snippet (Sample.host true) (PStr (py "Workbook"))
                (Sample.loaded []))
         = Ret text.
Proof.
  split; [exact imported_schema_like|].
  destruct (get_schema_snippet_spec (Sample.host true) (py "Workbook")
              (Sample.loaded []) imported_schema_like)
    as (text & Hs & _ & Hrun & _).
  exists text. split; [exact Hs|]. rewrite Hrun. reflexivity.
Defined.

End SnippetFacts.

Import SnippetFacts.

(* ================================================================== *)
(** * The path statement *)
(* ================================================================== *)

Module PathFacts.








End PathFacts.

Import PathFacts.

(* ================================================================== *)
(** * main.py: the run of the entry point *)
(* ================================================================== *)

Module MainFacts.

Lemma final_app_last {A : Type} (l : list A) (x : A) :
  final (l ++ [x]) = Some x.
Proof.
  induction l as [|y l IH]; [reflexivity|].
  simpl. destruct (l ++ [x]) eqn:E; [destruct l; discriminate|exact IH].
Qed.

Lemma final_cons {A : Type} (x : A) (l : list A) (y : A) :
  final l = Some y -> final (x :: l) = Some y.
Proof. destruct l; [discriminate|]. simpl. auto. Qed.

Lemma final_app {A : Type} (l l' : list A) (y : A) :
  final l' = Some y -> final (l ++ l') = Some y.
Proof.
  intros H. induction l as [|x l IH]; [exact H|].
  simpl app. apply final_cons. exact IH.
Qed.

Lemma predicts_app l l' : predicts (l ++ l') = predicts l ++ predicts l'.
Proof. apply flat_map_app. Qed.

Lemma validations_app l l' :
  validations (l ++ l') = validations l ++ validations l'.
Proof. apply flat_map_app. Qed.

Lemma predicts_queries qs : predicts (map EvQuery qs) = [].
Proof. induction qs; simpl; auto. Qed.

Lemma validations_queries qs : validations (map EvQuery qs) = [].
Proof. induction qs; simpl; auto. Qed.

Lemma run_all_reads qs g : forallb is_read qs = true -> run_all qs g = g.
Proof.
  revert g; induction qs as [|q qs IH]; intros g H; simpl in *; auto.
  apply andb_true_iff in H as [Hq Hqs].
  rewrite (update_read q g Hq). apply IH; exact Hqs.
Qed.

(** ** The dict of allowed fields *)

Lemma lookup_dict_set_same d k v : Llm.lookup (dict_set d k v) k = Ret v.
Proof.
  induction d as [|[k' v'] d IH]; simpl.
  - rewrite eqb_refl; reflexivity.
  - destruct (PyStr.eqb k' k) eqn:E; simpl; rewrite E; auto.
Qed.

Lemma lookup_dict_set_keeps d k v k' :
  (exists x, Llm.lookup d k' = Ret x) ->
  exists x, Llm.lookup (dict_set d k v) k' = Ret x.
Proof.
  induction d as [|[k0 v0] d IH]; simpl; intros [x Hx]; [discriminate|].
  destruct (PyStr.eqb k0 k) eqn:E; simpl.
  - destruct (PyStr.eqb k0 k'); eauto.
  - destruct (PyStr.eqb k0 k'); eauto.
Qed.

Lemma lookup_fold entries d k :
  (exists x, Llm.lookup d k = Ret x) \/ In k (map fst entries) ->
  exists x,
    Llm.lookup (fold_left (fun d kv => dict_set d (fst kv) (snd kv)) entries d) k
    = Ret x.
Proof.
  revert d; induction entries as [|[k0 v0] entries IH]; simpl; intros d H.
  - destruct H as [H|[]]; exact H.
  - apply IH. destruct H as [H|[<-|H]].
    + left. apply lookup_dict_set_keeps; exact H.
    + left. eexists. apply lookup_dict_set_same.
    + right; exact H.
Qed.

Lemma correction_feedback_ok m invalids :
  (forall inv, In inv invalids -> exists x, Llm.lookup m (inv_type inv) = Ret x) ->
  exists ls, correction_feedback m invalids = Ret ls.
Proof.
  induction invalids as [|inv rest IH]; simpl; intros H; [eauto|].
  destruct (H inv (or_introl eq_refl)) as [x Hx].
  unfold correction_lines. rewrite Hx. simpl.
  destruct IH as [ls Hls]; [intros; apply H; auto|].
  rewrite Hls. simpl. eauto.
Qed.

Lemma build_correction_prompt_ok intent query invalids m :
  (forall inv, In inv invalids -> exists x, Llm.lookup m (inv_type inv) = Ret x) ->
  exists prompt, build_correction_prompt intent query invalids m = Ret prompt.
Proof.
  intros H. unfold build_correction_prompt.
  destruct (correction_feedback_ok m invalids H) as [ls ->]. simpl. eauto.
Qed.

Section WithHost.

Variable h : Host.

Lemma bind_run {A B : Type} (m : M h A) (f : A -> M h B) st a st' :
  m st = (Ret a, st') -> bind m f st = f a st'.
Proof. intros H. unfold bind. rewrite H. reflexivity. Qed.

Lemma bind_raise {A B : Type} (m : M h A) (f : A -> M h B) st e st' :
  m st = (Raise e, st') -> bind m f st = (Raise e, st').
Proof. intros H. unfold bind. rewrite H. reflexivity. Qed.

Lemma fields_queries_read invalids :
  forallb is_read (fields_queries invalids) = true.
Proof. induction invalids; simpl; auto. Qed.

Lemma allowed_entries_run invalids (st : State h) :
  map_m (fun inv =>
           fields <- rows (MATCH_FIELDS (inv_type inv))
                       (fun g => field_names g (inv_type inv)) ;;
           ret (inv_type inv, fields)) invalids st
  = (Ret (map (fun inv => (inv_type inv,
                           field_names (graph st) (inv_type inv))) invalids),
     mkState (graph st) (llm st)
       (log st ++ map EvQuery (fields_queries invalids))).
Proof.
  revert st; induction invalids as [|inv rest IH]; intros st.
  - simpl. unfold ret. rewrite app_nil_r. destruct st; reflexivity.
  - cbn [map_m]. unfold bind at 1. unfold rows at 1, bind at 1, bind at 1.
    cbn [graph_query ret update graph llm log].
    unfold bind at 1. rewrite IH. cbn [graph llm log ret].
    unfold fields_queries. cbn [map]. rewrite <- app_assoc. reflexivity.
Qed.

Lemma allowed_fields_run invalids (st : State h) :
  exists m,
    allowed_fields h invalids st
    = (Ret m, mkState (graph st) (llm st)
                (log st ++ map EvQuery (fields_queries invalids)))
    /\ forall inv, In inv invalids ->
                   exists x, Llm.lookup m (inv_type inv) = Ret x.
Proof.
  unfold allowed_fields. eexists. split.
  - rewrite (bind_run _ _ _ _ _ (allowed_entries_run invalids st)).
    reflexivity.
  - intros inv Hin. apply lookup_fold. right.
    rewrite map_map. cbn [fst]. apply in_map_iff. eauto.
Qed.

Lemma llm_predict_run prompt (st : State h) :
  llm_predict prompt st
  = (Ret (fst (predict h (llm st) prompt)),
     mkState (graph st) (snd (predict h (llm st) prompt))
       (log st ++ [EvPredict prompt (fst (predict h (llm st) prompt))])).
Proof.
  unfold llm_predict. destruct (predict h (llm st) prompt); reflexivity.
Qed.

Lemma validate_query_run query (st : State h) :
  validator_ready h = true ->
  exists errs,
    validate_query h query st
    = (Ret errs, mkState (graph st) (llm st)
                   (log st ++ [EvValidate query errs])).
Proof.
  unfold validator_ready, validate_query. intros H.
  destruct (introspection_error h); [discriminate|].
  eexists. reflexivity.
Qed.

Lemma validate_query_raises query (st : State h) e :
  introspection_error h = Some e ->
  validate_query h query st = (Raise e, st).
Proof. unfold validate_query. intros ->. reflexivity. Qed.

Lemma extract_returns response :
  exists q v, extract_query_and_vars h response = Ret (q, v).
Proof. unfold extract_query_and_vars. eauto. Qed.

(** The correction loop never raises, leaves the database alone, asks the
    provider at most [left] times, and ends as [loop_post] says. *)
Lemma correction_loop_run intent left :
  validator_ready h = true ->
  forall q v errs (st : State h),
  exists fin st' new,
    correction_loop h intent left q v errs st = (Ret fin, st')
    /\ graph st' = graph st
    /\ log st' = log st ++ new
    /\ length (predicts new) <= left
    /\ loop_post h q v errs left new fin.
Proof.
  intros Hready.
  induction left as [|left IH]; intros q v errs st.
  - exists (Exited q v errs), st, [].
    destruct errs; simpl; rewrite app_nil_r;
      repeat split; auto; right; auto.
  - destruct errs as [|e errs].
    { exists (Exited q v []), st, [].
      simpl; rewrite app_nil_r; repeat split; auto; lia. }
    cbn [correction_loop].
    set (invalids := extract_invalids (e :: errs)).
    destruct (allowed_fields_run invalids st) as (m & Hm & Hlook).
    rewrite (bind_run _ _ _ _ _ Hm).
    destruct (build_correction_prompt_ok intent q invalids m Hlook)
      as (prompt & Hp).
    unfold lift at 1. unfold bind at 1. rewrite Hp.
    rewrite (bind_run _ _ _ _ _ (llm_predict_run prompt _)).
    cbn [graph llm log].
    set (resp := fst (predict h (llm st) prompt)).
    set (l1 := snd (predict h (llm st) prompt)).
    destruct (extract_returns resp) as (qo & vars & Hx).
    unfold lift at 1. unfold bind at 1. rewrite Hx. cbn [fst snd].
    set (pre := map EvQuery (fields_queries invalids)
                ++ [EvPredict prompt resp]).
    assert (Hpre : predicts pre = [(prompt, resp)]).
    { unfold pre. rewrite predicts_app, predicts_queries. reflexivity. }
    assert (Vpre : validations pre = []).
    { unfold pre. rewrite validations_app, validations_queries. reflexivity. }
    assert (Hfail :
      exists st' new,
        @ret h _ (Returned (PDict
              [ (py "error", PStr (py "Correction step failed"));
                (py "raw", PStr resp) ]))
          (mkState (graph st) l1
             ((log st ++ map EvQuery (fields_queries invalids))
              ++ [EvPredict prompt resp]))
        = (Ret (Returned (raw_error_result (py "Correction step failed") resp)),
           st')
        /\ graph st' = graph st /\ log st' = log st ++ new
        /\ length (predicts new) <= S left
        /\ ((forall q' v',
               extract_query_and_vars h resp = Ret (Some q', v') ->
               truthy q' = false) ->
            loop_post h q v (e :: errs) (S left) new
              (Returned
                 (raw_error_result (py "Correction step failed") resp)))).
    { eexists. exists pre. split; [reflexivity|].
      cbn [graph log]. split; [reflexivity|].
      split; [unfold pre; rewrite app_assoc; reflexivity|].
      rewrite Hpre. split; [simpl; lia|]. intros Hno.
      simpl. exists prompt, resp. rewrite Hpre.
      split; [reflexivity|]. split; [reflexivity | exact Hno]. }
    destruct qo as [q'|].
    2:{ destruct Hfail as (st' & new & H1 & H2 & H3 & H4 & H5).
        exists (Returned (raw_error_result (py "Correction step failed") resp)),
               st', new. repeat (split; [assumption|]).
        apply H5. intros q2 v2 E. rewrite Hx in E. discriminate. }
    destruct (truthy q') eqn:Tq.
    2:{ destruct Hfail as (st' & new & H1 & H2 & H3 & H4 & H5).
        exists (Returned (raw_error_result (py "Correction step failed") resp)),
               st', new. repeat (split; [assumption|]).
        apply H5. intros q2 v2 E. rewrite Hx in E.
        inversion E; subst. exact Tq. }
    clear Hfail.
    destruct (validate_query_run q'
                (mkState (graph st) l1
                   ((log st ++ map EvQuery (fields_queries invalids))
                    ++ [EvPredict prompt resp])) Hready) as (errs' & Hv).
    rewrite (bind_run _ _ _ _ _ Hv). cbn [graph llm log] in *.
    destruct (IH q' vars errs'
                (mkState (graph st) l1
                   (((log st ++ map EvQuery (fields_queries invalids))
                     ++ [EvPredict prompt resp]) ++ [EvValidate q' errs'])))
      as (fin & st' & new & Hrun & Hg & Hl & Hlen & Hpost).
    exists fin, st', (pre ++ [EvValidate q' errs'] ++ new).
    split; [exact Hrun|]. cbn [graph log] in Hg, Hl.
    split; [exact Hg|].
    split; [rewrite Hl; unfold pre; rewrite <- !app_assoc; reflexivity|].
    rewrite !predicts_app, Hpre. cbn [predicts flat_map app].
    split; [simpl; lia|].
    destruct fin as [res|q2 v2 errs2]; cbn [loop_post] in *.
    + destruct Hpost as (p & r & Hf & -> & Hno).
      exists p, r. rewrite !predicts_app, Hpre. cbn [predicts flat_map app].
      split; [apply final_cons; exact Hf|]. split; [reflexivity | exact Hno].
    + destruct Hpost as [Hexit Hwhich]. split.
      * destruct Hexit as [->|Hn]; [left; reflexivity|].
        right. rewrite !predicts_app, Hpre. cbn [predicts flat_map app].
        unfold predicts in *. simpl. lia.
      * right. destruct Hwhich as [(-> & -> & -> & ->)|(p & r & Hf & Hx' & Hvf)].
        -- exists prompt, resp.
           rewrite !predicts_app, !validations_app, Hpre, Vpre.
           cbn. split; [reflexivity|]. split; [exact Hx|reflexivity].
        -- exists p, r.
           rewrite !predicts_app, !validations_app, Hpre, Vpre.
           cbn [predicts validations flat_map app].
           split; [apply final_cons; exact Hf|].
           split; [exact Hx'|]. apply final_cons. exact Hvf.
Qed.

Lemma lift_run {A : Type} (o : outcome A) a (st : State h) :
  o = Ret a -> lift o st = (Ret a, st).
Proof. intros ->. reflexivity. Qed.

Lemma filter_none {A : Type} (f : A -> bool) l :
  forallb (fun x => negb (f x)) l = true -> filter f l = [].
Proof.
  induction l as [|x l IH]; simpl; [reflexivity|].
  intros H. apply andb_true_iff in H as [Hx Hl].
  destruct (f x); [discriminate|]. auto.
Qed.

Lemma env_ok_split :
  env_ok h = true ->
  filter (env_missing h) (NEO4J_VARS ++ LLM_VARS) = []
  /\ filter (env_missing h) NEO4J_VARS = []
  /\ filter (env_missing h) LLM_VARS = [].
Proof.
  unfold env_ok. intros H. split; [apply filter_none; exact H|].
  rewrite forallb_app in H. apply andb_true_iff in H as [H1 H2].
  split; apply filter_none; assumption.
Qed.

Lemma rows_run {R : Type} q (read : Store -> R) (st : State h) :
  rows q read st
  = (Ret (read (update q (graph st))), after_queries h [q] st).
Proof. reflexivity. Qed.

(** Step 1: a database that has a node is not built again. *)
Lemma build_skipped_run (st : State h) :
  has_nodes (graph st) = true ->
  (if (0 <? count_nodes (graph st))%Z then ret tt
   else
     status <- build_graph h ;;
     if status then ret tt
     else raise (RuntimeError (py "Error Building schema graph.")))
    (after_queries h [COUNT_NODES] st)
  = (Ret tt, after_queries h [COUNT_NODES] st).
Proof.
  unfold has_nodes, count_nodes. intros H.
  destruct (nodes (graph st)) as [|n ns]; [discriminate|].
  replace (0 <? Z.of_nat (length (n :: ns)))%Z with true
    by (symmetry; apply Z.ltb_lt; simpl; lia).
  reflexivity.
Qed.


Lemma path_rows_run src dst hops (st : State h) :
  path_statement_ok src dst hops = true ->
  get_schema_paths h src dst hops st
  = (Ret (shortest_paths (graph st) src dst hops),
     after_queries h [SHORTEST_PATH src dst hops] st).
Proof. unfold get_schema_paths. intros ->. reflexivity. Qed.

End WithHost.

Ltac startup h intent st Henv Hstore :=
  let E1 := fresh "E1" in
  let E2 := fresh "E2" in
  let E3 := fresh "E3" in
  destruct (env_ok_split h Henv) as (E1 & E2 & E3);
  unfold generate_graphql_with_inference;
  (erewrite (bind_run h _ _ st);
    [|apply lift_run; unfold check_env_vars; rewrite E1; reflexivity]);
  (erewrite (bind_run h _ _ st);
    [|apply lift_run; unfold check_llm_env_vars; rewrite E3; reflexivity]);
  (erewrite (bind_run h _ _ st tt st);
    [|unfold init_graph_driver; erewrite (bind_run h _ _ st);
      [reflexivity
      |apply lift_run; unfold check_env_vars; rewrite E2; reflexivity]]);
  rewrite (bind_run h _ _ _ _ _ (is_graph_built_run h st));
  rewrite (bind_run h _ _ _ _ _ (build_skipped_run h st Hstore));
  unfold get_schema_types;
  rewrite (bind_run h _ _ _ _ _ (rows_run h MATCH_TYPE_NAMES type_names _));
  rewrite <- after_queries_app;
  change ([COUNT_NODES] ++ [MATCH_TYPE_NAMES]) with startup_queries;
  change (update MATCH_TYPE_NAMES (graph (after_queries h [COUNT_NODES] st)))
    with (graph st);
  (erewrite (bind_run h _ _ (after_queries h startup_queries st)
              tt (after_queries h startup_queries st));
    [|unfold get_llm; erewrite (bind_run h _ _ _);
      [reflexivity
      |apply lift_run; unfold check_llm_env_vars; rewrite E3; reflexivity]]);
  unfold infer_types_from_intent;
  (erewrite (bind_run h _ _ (after_queries h startup_queries st));
    [|rewrite (bind_run h _ _ _ _ _ (llm_predict_run h _ _)); reflexivity]);
  change (infer_prompt_0
          ++ join (py ", ") (type_names (graph st))
          ++ infer_prompt_1 ++ intent ++ infer_prompt_2)
    with (inference_prompt intent (graph st));
  change (llm (after_queries h startup_queries st)) with (llm st);
  change (graph (after_queries h startup_queries st)) with (graph st);
  change (fst (predict h (llm st) (inference_prompt intent (graph st))))
    with (inference_reply h intent st).

Section WithHost.

Variable h : Host.

Lemma generate_run intent hops retries (st : State h) src dst :
  env_ok h = true -> has_nodes (graph st) = true ->
  validator_ready h = true ->
  inferred h intent hops st src dst ->
  exists res st' new,
    generate_graphql_with_inference h intent hops retries st = (Ret res, st')
    /\ graph st' = graph st
    /\ log st'
       = log st ++ map EvQuery startup_queries
         ++ [EvPredict (inference_prompt intent (graph st))
               (inference_reply h intent st)]
         ++ new
    /\ match shortest_paths (graph st) src dst hops with
       | [] =>
           res = error_result
                   (py "No valid schema path found between "
                    ++ src ++ py " and " ++ dst)
           /\ predicts new = [] /\ validations new = []
       | _ :: _ => generation_post h retries new res
       end.
Proof.
  intros Henv Hstore Hready (Hparse & Hok).
  startup h intent st Henv Hstore.
  set (st1 := after_queries h startup_queries st).
  set (reply := inference_reply h intent st) in *.
  set (iprompt := inference_prompt intent (graph st)) in *.
  erewrite (bind_run h _ _ _ (PStr src, PStr dst));
    [|apply lift_run; exact Hparse].
  cbn [str_of].
  rewrite (bind_run h _ _ _ _ _ (path_rows_run h src dst hops _ Hok)).
  cbn [update graph llm log].
  set (g1 := graph st).
  set (q_path := SHORTEST_PATH src dst hops).
  set (l1 := snd (predict h (llm st) iprompt)).
  assert (Hq : after_queries h [q_path]
                 (mkState g1 l1 (log st1 ++ [EvPredict iprompt reply]))
               = mkState g1 l1
                   (log st ++ map EvQuery startup_queries
                    ++ [EvPredict iprompt reply] ++ [EvQuery q_path])).
  { unfold after_queries. cbn [graph llm log run_all fold_left update map].
    unfold st1, after_queries. cbn [log]. rewrite <- !app_assoc.
    reflexivity. }
  rewrite Hq. clear Hq.
  set (log2 := log st ++ map EvQuery startup_queries
               ++ [EvPredict iprompt reply] ++ [EvQuery q_path]).
  destruct (shortest_paths g1 src dst hops) as [|p ps] eqn:Epaths.
  { eexists. eexists. exists [EvQuery q_path].
    split; [reflexivity|]. cbn [graph log].
    split; [reflexivity|].
    split; [reflexivity|].
    repeat split. }
  unfold get_schema_snippet.
  erewrite (bind_run h _ _ _);
    [|rewrite (bind_run h _ _ _ _ _ (rows_run h _ _ _)); reflexivity].
  cbn [update graph str_of snippet_rows_for].
  set (snippet := render_snippet src (snippet_rows g1 src)).
  set (gprompt := graphql_prompt_format intent
                    (join [NL] (map describe_path (p :: ps))) snippet).
  rewrite (bind_run h _ _ _ _ _ (llm_predict_run h gprompt _)).
  cbn [graph llm log after_queries run_all fold_left update map].
  set (r0 := fst (predict h l1 gprompt)).
  set (l2 := snd (predict h l1 gprompt)).
  destruct (extract_returns h r0) as (qo & vars & Hx).
  erewrite (bind_run h _ _ _ (qo, vars)); [|apply lift_run; exact Hx].
  cbn [fst snd].
  set (q_snip := MATCH_SNIPPET (PStr src)).
  set (pre := [EvQuery q_path; EvQuery q_snip; EvPredict gprompt r0]).
  assert (Hlog3 : (log2 ++ [EvQuery q_snip]) ++ [EvPredict gprompt r0]
                  = log st ++ map EvQuery startup_queries
                    ++ [EvPredict iprompt reply] ++ pre).
  { unfold log2, pre. rewrite <- !app_assoc. reflexivity. }
  rewrite Hlog3. clear Hlog3.
  assert (Hinvalid :
    exists res st' new,
      @ret h _ (PDict [ (py "error", PStr (py "Invalid LLM output"));
                        (py "raw", PStr r0) ])
        (mkState g1 l2
           (log st ++ map EvQuery startup_queries
            ++ [EvPredict iprompt reply] ++ pre))
      = (Ret res, st')
      /\ graph st' = g1
      /\ log st' = log st ++ map EvQuery startup_queries
                   ++ [EvPredict iprompt reply] ++ new
      /\ generation_post h retries new res).
  { eexists. eexists. exists pre. split; [reflexivity|].
    cbn [graph log]. split; [reflexivity|]. split; [reflexivity|].
    exists gprompt, r0, []. split; [reflexivity|].
    split; [simpl; lia|]. left. repeat split. }
  destruct qo as [q|]; [|exact Hinvalid].
  destruct (truthy q) eqn:Tq; cbn [negb]; [|exact Hinvalid].
  clear Hinvalid.
  destruct (validate_query_run h q
              (mkState g1 l2
                 (log st ++ map EvQuery startup_queries
                  ++ [EvPredict iprompt reply] ++ pre)) Hready)
    as (errs & Hv).
  rewrite (bind_run h _ _ _ _ _ Hv). clear Hv.
  destruct (correction_loop_run h intent (Z.to_nat retries) Hready q vars errs
              (mkState g1 l2
                 ((log st ++ map EvQuery startup_queries
                   ++ [EvPredict iprompt reply] ++ pre)
                  ++ [EvValidate q errs])))
    as (fin & st' & newl & Hrun & Hg & Hl & Hlen & Hpost).
  rewrite (bind_run h _ _ _ _ _ Hrun). cbn [graph log] in Hg, Hl.
  set (new := pre ++ [EvValidate q errs] ++ newl).
  assert (Hlog : log st' = log st ++ map EvQuery startup_queries
                           ++ [EvPredict iprompt reply] ++ new).
  { rewrite Hl. unfold new. rewrite <- !app_assoc. reflexivity. }
  assert (Hpred : predicts new = (gprompt, r0) :: predicts newl) by reflexivity.
  assert (Hval : validations new = (q, errs) :: validations newl)
    by reflexivity.
  destruct fin as [res|q' v' errs']; cbn [loop_post] in Hpost.
  - exists res, st', new. split; [reflexivity|].
    split; [exact Hg|]. split; [exact Hlog|].
    exists gprompt, r0, (predicts newl).
    split; [exact Hpred|]. split; [exact Hlen|].
    right; left. destruct Hpost as (p' & r & Hf & -> & Hno).
    exists p', r. split; [|split; [exact Hf|split; [reflexivity|exact Hno]]].
    intros E. rewrite E in Hf. discriminate.
  - destruct Hpost as [Hexit Hwhich].
    assert (Hthird :
      exists p' r,
        final (predicts new) = Some (p', r)
        /\ extract_query_and_vars h r = Ret (Some q', v')
        /\ final (validations new) = Some (q', errs')).
    { rewrite Hpred, Hval.
      destruct Hwhich as [(-> & -> & -> & ->)|(p' & r & Hf & Hx' & Hvf)].
      - exists gprompt, r0. repeat split; assumption.
      - exists p', r. split; [apply final_cons; exact Hf|].
        split; [exact Hx'|]. apply final_cons; exact Hvf. }
    destruct Hthird as (p' & r & Hf & Hx' & Hvf).
    destruct errs' as [|e' errs'].
    + eexists. exists st', new. split; [reflexivity|].
      split; [exact Hg|]. split; [exact Hlog|].
      exists gprompt, r0, (predicts newl).
      split; [exact Hpred|]. split; [exact Hlen|].
      right; right. exists p', r, q', v', []. repeat split; assumption.
    + eexists. exists st', new. split; [reflexivity|].
      split; [exact Hg|]. split; [exact Hlog|].
      exists gprompt, r0, (predicts newl).
      split; [exact Hpred|]. split; [exact Hlen|].
      right; right. exists p', r, q', v', (e' :: errs').
      split; [exact Hf|]. split; [exact Hx'|]. split; [exact Hvf|].
      split; [reflexivity|].
      destruct Hexit as [Hexit|Hexit]; [discriminate | exact Hexit].
Qed.







Lemma map_PStr_inj (a b : list pystr) : map PStr a = map PStr b -> a = b.
Proof.
  revert b; induction a as [|x a IH]; intros [|y b] E; try discriminate.
  - reflexivity.
  - simpl in E. injection E as Ex Er. subst. f_equal. apply IH; exact Er.
Qed.



(** C2. In a run on a loaded database that gets as far as the path lookup
    the provider is asked at most [1 + max_retries] times after the type
    inference; the run ends with a result, not an exception.  When the
    last reply held a query, and the last validation, of that query, left
    errors, the result is that query, its variables and exactly those
    errors, and all [1 + max_retries] calls were made; and a result that
    carries a list of errors is always of this kind. *)
Theorem correction_loop_bound intent hops max_retries (st : State h) src dst :
  (0 <= max_retries)%Z ->
  env_ok h = true -> has_nodes (graph st) = true ->
  validator_ready h = true ->
  inferred h intent hops st src dst ->
  exists res st' new,
    generate_graphql_with_inference h intent hops max_retries st
    = (Ret res, st')
    /\ log st'
       = log st ++ map EvQuery startup_queries
         ++ [EvPredict (inference_prompt intent (graph st))
               (inference_reply h intent st)]
         ++ new
    /\ (Z.of_nat (length (predicts new)) <= 1 + max_retries)%Z
    /\ (forall p r q v errs,
          final (predicts new) = Some (p, r) ->
          extract_query_and_vars h r = Ret (Some q, v) ->
          truthy q = true ->
          final (validations new) = Some (q, errs) ->
          errs <> [] ->
          res = query_result q v (PList (map PStr errs))
          /\ (Z.of_nat (length (predicts new)) = 1 + max_retries)%Z)
    /\ (forall q v errs,
          res = query_result q v (PList (map PStr errs)) ->
          errs <> []
          /\ final (validations new) = Some (q, errs)
          /\ exists p r,
               final (predicts new) = Some (p, r)
               /\ extract_query_and_vars h r = Ret (Some q, v)).
Proof.
  intros Hr Henv Hstore Hready Hinf.
  destruct (generate_run intent hops max_retries st src dst Henv Hstore Hready
              Hinf)
    as (res & st' & new & Hrun & _ & Hlog & Hpost).
  exists res, st', new. split; [exact Hrun|]. split; [exact Hlog|].
  destruct (shortest_paths (graph st) src dst hops) as [|pth pths].
  { destruct Hpost as (-> & Hpr & Hva). rewrite Hpr, Hva.
    split; [simpl length; lia|]. split.
    - intros p r q v errs Hf. discriminate.
    - intros q v errs E. discriminate. }
  destruct Hpost as (p0 & r0 & rest & Hpr & Hlen & Hcases).
  rewrite Hpr. split; [simpl length; lia|].
  destruct Hcases as [(-> & Hva & ->)|[H|H]].
  - split.
    + intros p r q v errs _ _ _ Hf. rewrite Hva in Hf. discriminate.
    + intros q v errs E. discriminate.
  - destruct H as (p & r & Hne & Hf & -> & Hno). split.
    + intros p' r' q v errs Hf' Hx Tq _ _.
      rewrite (final_cons _ _ _ Hf) in Hf'. inversion Hf'; subst.
      rewrite (Hno _ _ Hx) in Tq. discriminate.
    + intros q v errs E. discriminate.
  - destruct H as (p & r & q & v & errs & Hf & Hx & Hvf & Hres).
    rewrite Hpr in Hf. split.
    + intros p' r' q' v' errs' Hf' Hx' Tq Hvf' Hne.
      rewrite Hf in Hf'. inversion Hf'; subst p' r'.
      rewrite Hx in Hx'. inversion Hx'; subst q' v'.
      rewrite Hvf in Hvf'. inversion Hvf'; subst errs'.
      destruct errs as [|e errs]; [congruence|].
      destruct Hres as [-> Hall]. split; [reflexivity|].
      simpl length. lia.
    + intros q' v' errs' E.
      destruct errs as [|e errs].
      * rewrite Hres in E. discriminate.
      * destruct Hres as [-> Hall]. unfold query_result in E.
        injection E as Eq Ev Ee.
        change (PStr e :: map PStr errs) with (map PStr (e :: errs)) in Ee.
        apply map_PStr_inj in Ee. subst q' v' errs'.
        split; [discriminate|]. split; [exact Hvf|]. eauto.
Qed.


End WithHost.



(** A run in which the provider repeats a query the validator rejects. *)
Lemma correction_loop_bound_witness :
  exists res st' new,
    generate_graphql_with_inference (Sample.host true) Sample.intent 5 2
      (Sample.loaded
         [ Sample.types_reply (py "Workbook") (py "TableauUser");
           Sample.bad_reply; Sample.bad_reply; Sample.bad_reply ])
    = (Ret res, st')
    /\ (Z.of_nat (length (predicts new)) <= 1 + 2)%Z
    /\ res = query_result (py "query { workbooks { name owners { id } } }")
               (PDict [])
               (PList [ PStr (py "Cannot query field 'owners' on type 'Workbook'. Did you mean 'owner'?") ]).
Proof.
  destruct (correction_loop_bound (Sample.host true) Sample.intent 5 2
              (Sample.loaded
                 [ Sample.types_reply (py "Workbook") (py "TableauUser");
                   Sample.bad_reply; Sample.bad_reply; Sample.bad_reply ])
              (py "Workbook") (py "TableauUser"))
    as (res & st' & new & Hrun & _ & Hbound & _ & _).
  - lia.
  - vm_compute; reflexivity.
  - vm_compute; reflexivity.
  - vm_compute; reflexivity.
  - split; vm_compute; reflexivity.
  - exists res, st', new. split; [exact Hrun|]. split; [exact Hbound|].
    assert (E : fst (generate_graphql_with_inference (Sample.host true)
                       Sample.intent 5 2
                       (Sample.loaded
                          [ Sample.types_reply (py "Workbook")
                              (py "TableauUser");
                            Sample.bad_reply; Sample.bad_reply;
                            Sample.bad_reply ]))
                = Ret (query_result
                         (py "query { workbooks { name owners { id } } }")
                         (PDict [])
                         (PList [ PStr (py "Cannot query field 'owners' on type 'Workbook'. Did you mean 'owner'?") ])))
      by (vm_compute; reflexivity).
    rewrite Hrun in E. simpl in E. congruence.
Defined.


(** C3, on the code.  On the loaded database, a run whose first query
    passes validation returns the query and the variables, and under
    [errors] an empty dict, which is not an empty list. *)
Theorem success_errors_value :
  fst (generate_graphql_with_inference (Sample.host true) Sample.intent 5 2
         (Sample.loaded
            [ Sample.types_reply (py "Workbook") (py "TableauUser");
              Sample.good_reply ]))
  = Ret (PDict
      [ (py "query", PStr (py "query { workbooks { name owner { id } } }"));
        (py "variables", PDict []);
        (py "errors", PDict []) ])
  /\ PDict [] <> PList [].
Proof. split; [vm_compute; reflexivity | discriminate]. Qed.

End MainFacts.

Import MainFacts.

(* ================================================================== *)
(** * llm_orchestration.py: reading the reply of the model *)
(* ================================================================== *)

Module ExtractFacts.

(** ** Occurrences *)

Lemma split_compare {A : Type} (x' : list A) : forall x y y',
  x ++ y = x' ++ y' -> length x' <= length x ->
  exists z, x = x' ++ z /\ y' = z ++ y.
Proof.
  induction x' as [|a x' IH]; intros x y y' E Hlen.
  - exists x. simpl in E. auto.
  - destruct x as [|b x]; [simpl in Hlen; lia|].
    simpl in E. injection E as -> E.
    destruct (IH x y y' E) as (z & -> & ->); [simpl in Hlen; lia|].
    exists z. auto.
Qed.

Lemma split_same {A : Type} (x x' y y' : list A) :
  x ++ y = x' ++ y' -> length x = length x' -> x = x' /\ y = y'.
Proof.
  intros E Hlen.
  destruct (split_compare x' x y y' E) as (z & -> & ->); [lia|].
  rewrite length_app in Hlen. destruct z; [|simpl in Hlen; lia].
  rewrite app_nil_r. auto.
Qed.


Lemma occurs_at_shift p a s x :
  occurs_at p s x -> occurs_at p (a ++ s) (a ++ x).
Proof. intros [b ->]. exists b. rewrite app_assoc. reflexivity. Qed.


Lemma find_index_first p s n :
  find_index p s = Some n -> first_at p s (firstn n s).
Proof.
  revert n; induction s as [|x s IH]; intros n; simpl.
  - destruct (strip_prefix p []) as [r|] eqn:E; [|discriminate].
    intros H; inversion H; subst. apply strip_prefix_Some in E.
    split; [exists r; exact E | simpl; intros; lia].
  - destruct (strip_prefix p (x :: s)) as [r|] eqn:E.
    + intros H; inversion H; subst. apply strip_prefix_Some in E.
      split; [exists r; exact E | simpl; intros; lia].
    + destruct (find_index p s) as [m|] eqn:F; [|discriminate].
      simpl. intros H; inversion H; subst.
      destruct (IH m eq_refl) as [[b Eb] Hmin]. split.
      * exists b. simpl. f_equal. exact Eb.
      * intros a' [b' E']. destruct a' as [|y a'].
        -- simpl in E'. rewrite E' in E. rewrite strip_prefix_app in E.
           discriminate.
        -- simpl in E'. injection E' as -> E'. simpl.
           apply le_n_S. apply Hmin. exists b'. exact E'.
Qed.

(** A way to check [first_at] by computation. *)
Lemma first_at_check p a rest :
  find_index p (a ++ rest) = Some (length a) -> first_at p (a ++ rest) a.
Proof.
  intros H. apply find_index_first in H.
  rewrite firstn_app, Nat.sub_diag, firstn_all in H. simpl in H.
  rewrite app_nil_r in H. exact H.
Qed.

(** ** [(.*?)] up to a literal, at the end of a pattern *)

Lemma until_Some p r c out :
  until p r c = Some out ->
  exists body, first_at p r body /\ out = c ++ [body].
Proof.
  unfold until, Re.group. intros H.
  apply star_lazy_Some in H as (a & b & -> & Hk & Hmin).
  apply lit_Some in Hk as (post & -> & Hk).
  rewrite firstn_consumed in Hk. inversion Hk; subst out.
  exists a. split; [|reflexivity]. split; [exists post; reflexivity|].
  intros a' [b' E'].
  destruct (Nat.le_gt_cases (length a) (length a')) as [|Hlt]; [assumption|].
  specialize (Hmin a' (p ++ b') E' Hlt). cbv beta in Hmin.
  rewrite lit_app in Hmin. discriminate.
Qed.

Lemma until_intro p r c body :
  first_at p r body -> until p r c = Some (c ++ [body]).
Proof.
  intros [[post ->] Hmin]. unfold until, Re.group.
  apply star_lazy_intro.
  - rewrite lit_app, firstn_consumed. reflexivity.
  - intros a' b' E Hlen.
    destruct (Re.lit p Re.accept b' _) eqn:K; [|reflexivity].
    apply lit_Some in K as (x & -> & _).
    assert (length body <= length a') by (apply Hmin; exists x; exact E).
    lia.
Qed.

Lemma until_None p r c :
  until p r c = None -> forall a, ~ occurs_at p r a.
Proof.
  unfold until, Re.group. intros H a [b E].
  pose proof (star_lazy_None _ _ _ H a (p ++ b) E) as K.
  cbv beta in K. rewrite lit_app in K. discriminate.
Qed.

(** If [p] occurs at all it has a first occurrence. *)
Lemma occurs_first p r a :
  occurs_at p r a -> exists body, first_at p r body.
Proof.
  intros Ho. destruct (until p r []) as [out|] eqn:E.
  - apply until_Some in E as (body & Hf & _). eauto.
  - exfalso. exact (until_None _ _ _ E a Ho).
Qed.

(** ** [re.search] for a pattern that starts with a literal *)

Lemma search_lit_Some p k s c :
  Re.search (Re.lit p k) s = Some c ->
  exists pre r,
    s = pre ++ p ++ r /\ k r [] = Some c
    /\ forall a' b', s = a' ++ p ++ b' -> length a' < length pre ->
                     k b' [] = None.
Proof.
  intros H. apply search_Some in H as (pre & suf & -> & Hm & Hmin).
  apply lit_Some in Hm as (r & -> & Hk).
  exists pre, r. repeat split; auto.
  intros a' b' E Hlen. specialize (Hmin a' (p ++ b') E Hlen).
  rewrite lit_app in Hmin. exact Hmin.
Qed.

Lemma search_lit_intro p k pre r c :
  first_at p (pre ++ p ++ r) pre -> k r [] = Some c ->
  Re.search (Re.lit p k) (pre ++ p ++ r) = Some c.
Proof.
  intros [_ Hmin] Hk. apply search_intro.
  - rewrite lit_app. exact Hk.
  - intros a' b' E Hlen.
    destruct (Re.lit p k b' []) eqn:K; [|reflexivity].
    apply lit_Some in K as (x & -> & _).
    assert (length pre <= length a') by (apply Hmin; exists x; exact E).
    lia.
Qed.




(** ** The fenced query block *)

Lemma fence_search_intro s body :
  first_fence s body ->
  Re.search (re_graphql_fence Re.accept) s = Some [body].
Proof.
  intros (pre & post & -> & Hpre & Hbody).
  unfold re_graphql_fence. apply search_lit_intro; [exact Hpre|].
  apply (until_intro _ _ [] _ Hbody).
Qed.




(** ** The greedy star in general: the longest prefix in the class after
    which the rest of the pattern matches *)

Lemma star_greedy_None_all cls k c : forall s,
  Re.star_greedy cls k s c = None ->
  forall w r, s = w ++ r -> forallb cls w = true -> k r c = None.
Proof.
  induction s as [|x s IH]; simpl; intros H w r E Hw.
  - destruct w; [|discriminate]. simpl in E; subst. exact H.
  - destruct w as [|y w].
    + simpl in E; subst. destruct (cls x); [|exact H].
      destruct (Re.star_greedy cls k s c); [discriminate | exact H].
    + simpl in E. injection E as Ey Es. subst y. simpl in Hw.
      apply andb_true_iff in Hw as [Cx Hw]. rewrite Cx in H.
      destruct (Re.star_greedy cls k s c) eqn:G; [discriminate|].
      exact (IH eq_refl w r Es Hw).
Qed.


Lemma star_greedy_Some cls k c : forall s out,
  Re.star_greedy cls k s c = Some out ->
  exists w r,
    s = w ++ r /\ forallb cls w = true /\ k r c = Some out
    /\ forall w2 r2, s = w2 ++ r2 -> forallb cls w2 = true ->
                     length w < length w2 -> k r2 c = None.
Proof.
  induction s as [|x s IH]; intros out; simpl.
  - intros H. exists [], []. repeat split; auto.
    intros [|y w2] r2 E _ Hlen; [simpl in Hlen; lia | discriminate].
  - destruct (cls x) eqn:Cx.
    + destruct (Re.star_greedy cls k s c) as [o|] eqn:G.
      * intros H; inversion H; subst o.
        destruct (IH out eq_refl) as (w & r & Es & Hw & Hk & Hmax).
        exists (x :: w), r. simpl. rewrite Cx, Hw, Es.
        repeat split; auto.
        intros [|y w2] r2 E Hw2 Hlen; [simpl in Hlen; lia|].
        simpl in E. injection E as Ey E. simpl in Hw2.
        apply andb_true_iff in Hw2 as [_ Hw2].
        apply (Hmax w2 r2); [rewrite Es; exact E | exact Hw2|].
        simpl in Hlen. lia.
      * intros H. exists [], (x :: s). repeat split; auto.
        intros [|y w2] r2 E Hw2 Hlen; [simpl in Hlen; lia|].
        simpl in E. injection E as Ey E. simpl in Hw2.
        apply andb_true_iff in Hw2 as [_ Hw2].
        exact (star_greedy_None_all cls k c s G w2 r2 E Hw2).
    + intros H. exists [], (x :: s). repeat split; auto.
      intros [|y w2] r2 E Hw2 Hlen; [simpl in Hlen; lia|].
      simpl in E. injection E as Ey E. subst y. simpl in Hw2.
      rewrite Cx in Hw2. discriminate.
Qed.

(** ** White space *)



Lemma lstrip_all_ws w : forallb isspace w = true -> lstrip w = [].
Proof.
  induction w as [|x w IH]; simpl; [reflexivity|].
  intros H. apply andb_true_iff in H as [Hx Hw]. rewrite Hx. auto.
Qed.

(** ** The labelled query section *)






(** ** The fenced variables block *)

Lemma JOPEN_backtick : py "```json" = BACKTICK :: py "``json".
Proof. reflexivity. Qed.

Lemma isspace_not_backtick x : isspace x = true -> BACKTICK <> x.
Proof. intros H <-. discriminate H. Qed.

Lemma vars_fence_intro pre ws j post :
  first_at (py "Variables:")
    (pre ++ py "Variables:" ++ ws ++ py "```json" ++ j ++ py "```" ++ post)
    pre ->
  forallb isspace ws = true ->
  first_at (py "```") (j ++ py "```" ++ post) j ->
  Re.search (re_vars_fence Re.accept)
    (pre ++ py "Variables:" ++ ws ++ py "```json" ++ j ++ py "```" ++ post)
  = Some [j].
Proof.
  intros Hpre Hws Hj. unfold re_vars_fence.
  apply search_lit_intro; [exact Hpre|].
  rewrite star_greedy_det.
  - rewrite JOPEN_backtick. rewrite <- app_comm_cons.
    rewrite (drop_while_app isspace ws BACKTICK _ Hws eq_refl).
    change (BACKTICK :: py "``json" ++ j ++ py "```" ++ post)
      with ((BACKTICK :: py "``json") ++ j ++ py "```" ++ post).
    rewrite lit_app. apply (until_intro _ _ [] _ Hj).
  - intros x t c Hx. rewrite JOPEN_backtick.
    apply lit_cons_mismatch. apply isspace_not_backtick; exact Hx.
Qed.

Section WithHost.

Variable h : Host.


(** C6. For a reply made of a fenced query block and, after the label
    [Variables:] and white space, a fenced JSON block, the query is the
    text of the query block, trimmed, and the variables are what
    [json.loads] makes of the text of the JSON block, trimmed.  The blocks
    are the first of their kind: the opening fence and the label are the
    first in the reply, and each block ends at the first closing fence. *)
Theorem extract_round_trip (pre query mid ws j post : pystr) (v : pyval) :
  let response :=
    pre ++ py "```graphql" ++ query ++ py "```" ++ mid
    ++ py "Variables:" ++ ws ++ py "```json" ++ j ++ py "```" ++ post in
  first_at (py "```graphql") response pre ->
  first_at (py "```")
    (query ++ py "```" ++ mid ++ py "Variables:" ++ ws ++ py "```json"
     ++ j ++ py "```" ++ post) query ->
  first_at (py "Variables:") response
    (pre ++ py "```graphql" ++ query ++ py "```" ++ mid) ->
  forallb isspace ws = true ->
  first_at (py "```") (j ++ py "```" ++ post) j ->
  json_loads h (strip j) = Some v ->
  extract_query_and_vars h response = Ret (Some (strip query), v).
Proof.
  intros response Hopen Hclose Hlabel Hws Hj Hv.
  unfold extract_query_and_vars.
  assert (Hq : Re.search (re_graphql_fence Re.accept) response
               = Some [query]).
  { apply fence_search_intro. exists pre. eexists.
    split; [reflexivity|]. split; assumption. }
  assert (Hvars : Re.search (re_vars_fence Re.accept) response = Some [j]).
  { assert (E : response
                = (pre ++ py "```graphql" ++ query ++ py "```" ++ mid)
                  ++ py "Variables:" ++ ws ++ py "```json" ++ j
                  ++ py "```" ++ post)
      by (unfold response; rewrite <- !app_assoc; reflexivity).
    rewrite E in *. apply vars_fence_intro; assumption. }
  rewrite Hq, Hvars. cbn [Re.group_at nth]. unfold loads. rewrite Hv.
  reflexivity.
Qed.

End WithHost.


(** A reply with both blocks, the variables being the empty object. *)
Lemma extract_round_trip_witness :
  extract_query_and_vars (Sample.host true)
    ([] ++ py "```graphql"
     ++ ([NL] ++ py "query { workbooks { name } }" ++ [NL]) ++ py "```"
     ++ [NL; NL] ++ py "Variables:" ++ [NL] ++ py "```json"
     ++ ([NL] ++ py "{}" ++ [NL]) ++ py "```" ++ [NL])
  = Ret (Some (py "query { workbooks { name } }"), PDict []).
Proof.
  apply (extract_round_trip (Sample.host true) []
           ([NL] ++ py "query { workbooks { name } }" ++ [NL])
           [NL; NL] [NL] ([NL] ++ py "{}" ++ [NL]) [NL] (PDict [])).
  - apply first_at_check. vm_compute. reflexivity.
  - apply first_at_check. vm_compute. reflexivity.
  - apply (first_at_check (py "Variables:")
             ([] ++ py "```graphql"
              ++ ([NL] ++ py "query { workbooks { name } }" ++ [NL])
              ++ py "```" ++ [NL; NL])).
    vm_compute. reflexivity.
  - reflexivity.
  - apply first_at_check. vm_compute. reflexivity.
  - vm_compute. reflexivity.
Defined.


End ExtractFacts.

Import ExtractFacts.

(* ================================================================== *)
(** * More about the path statement *)
(* ================================================================== *)

Module PathRows.



Section WithHost.

Variable h : Host.


End WithHost.


End PathRows.

Import PathRows.

(* ================================================================== *)
(** * The span from the first [{] to the last [}] *)
(* ================================================================== *)

Module JsonSpan.

Lemma star_greedy_intro cls k c w r out :
  forallb cls w = true -> k r c = Some out ->
  (forall w2 r2, w ++ r = w2 ++ r2 -> forallb cls w2 = true ->
                 length w < length w2 -> k r2 c = None) ->
  Re.star_greedy cls k (w ++ r) c = Some out.
Proof.
  intros Hw Hk Hmax.
  destruct (Re.star_greedy cls k (w ++ r) c) as [out'|] eqn:G.
  - apply star_greedy_Some in G as (w' & r' & E & Hw' & Hk' & Hmax').
    destruct (Nat.lt_trichotomy (length w) (length w')) as [Hlt|[Heq|Hgt]].
    + rewrite (Hmax w' r' E Hw' Hlt) in Hk'. discriminate.
    + destruct (split_same _ _ _ _ E Heq) as [-> ->]. congruence.
    + rewrite (Hmax' w r eq_refl Hw Hgt) in Hk. discriminate.
  - rewrite (star_greedy_None_all cls k c _ G w r eq_refl Hw) in Hk.
    discriminate.
Qed.

Lemma forallb_any s : forallb Re.any s = true.
Proof. induction s; simpl; auto. Qed.

Lemma json_object_unfold k s c :
  re_json_object k s c
  = Re.lit [LBRACE]
      (Re.star_greedy Re.any
         (Re.lit [RBRACE]
            (fun s' c' => k s' (c' ++ [firstn (length s - length s') s]))))
      s c.
Proof. reflexivity. Qed.

(** At a [{], the match runs to the last [}] of the text. *)
Lemma json_object_here mid b c :
  ~ In RBRACE b ->
  re_json_object Re.accept ([LBRACE] ++ mid ++ [RBRACE] ++ b) c
  = Some (c ++ [[LBRACE] ++ mid ++ [RBRACE]]).
Proof.
  intros Hb. rewrite json_object_unfold. rewrite lit_app.
  apply star_greedy_intro.
  - apply forallb_any.
  - rewrite lit_app. unfold Re.accept. do 3 f_equal.
    replace ([LBRACE] ++ mid ++ [RBRACE] ++ b)
      with (([LBRACE] ++ mid ++ [RBRACE]) ++ b)
      by (rewrite <- !app_assoc; reflexivity).
    apply firstn_consumed.
  - intros w2 r2 E _ Hlen.
    destruct (split_compare (mid ++ [RBRACE]) w2 r2 b) as (z & _ & Eb).
    + rewrite <- app_assoc. symmetry. exact E.
    + rewrite length_app. simpl. lia.
    + destruct r2 as [|x r2]; [reflexivity|].
      apply lit_cons_mismatch. intros <-. apply Hb. rewrite Eb.
      apply in_or_app. right. left. reflexivity.
Qed.

Lemma json_object_brace s c out :
  re_json_object Re.accept s c = Some out ->
  exists mid b, s = [LBRACE] ++ mid ++ [RBRACE] ++ b.
Proof.
  rewrite json_object_unfold. intros H.
  apply lit_Some in H as (r & -> & H).
  apply star_greedy_Some in H as (w & r' & -> & _ & H & _).
  apply lit_Some in H as (b & -> & _). eauto.
Qed.

Lemma json_object_search a mid b :
  ~ In LBRACE a -> ~ In RBRACE b ->
  Re.search (re_json_object Re.accept) (a ++ [LBRACE] ++ mid ++ [RBRACE] ++ b)
  = Some [[LBRACE] ++ mid ++ [RBRACE]].
Proof.
  intros Ha Hb. apply search_intro.
  - apply (json_object_here mid b [] Hb).
  - intros a' b' E Hlen.
    destruct (split_compare a' a _ b' E) as (z & Ez & ->); [lia|].
    destruct z as [|x z].
    { rewrite app_nil_r in Ez. subst. lia. }
    rewrite json_object_unfold. apply lit_cons_mismatch.
    intros <-. apply Ha. rewrite Ez. apply in_or_app. right. left.
    reflexivity.
Qed.

Lemma json_object_absent s :
  (forall a mid b, s <> a ++ [LBRACE] ++ mid ++ [RBRACE] ++ b) ->
  Re.search (re_json_object Re.accept) s = None.
Proof.
  intros Hno.
  destruct (Re.search (re_json_object Re.accept) s) as [c|] eqn:E;
    [|reflexivity].
  apply search_Some in E as (a & suf & -> & Hm & _).
  apply json_object_brace in Hm as (mid & b & ->).
  exfalso. exact (Hno a mid b eq_refl).
Qed.

Section WithHost.

Variable h : Host.

(** X5. [parse_types] reads the reply from its first [{] to its last [}]:
    when [json.loads] makes a dict of that span the result is the values
    under [src_type] and [dst_type], [None] for a key that is missing;
    when it makes something else, or fails, the error is raised. *)
Theorem parse_types_span (a mid b : pystr) :
  ~ In LBRACE a -> ~ In RBRACE b ->
  parse_types h (a ++ [LBRACE] ++ mid ++ [RBRACE] ++ b)
  = match json_loads h ([LBRACE] ++ mid ++ [RBRACE]) with
    | Some (PDict d) =>
        Ret (dict_get d (py "src_type"), dict_get d (py "dst_type"))
    | Some _ => Raise AttributeError
    | None => Raise JSONDecodeError
    end.
Proof.
  intros Ha Hb. unfold parse_types.
  rewrite (json_object_search a mid b Ha Hb). cbn [Re.group_at nth].
  unfold loads.
  destruct (json_loads h ([LBRACE] ++ mid ++ [RBRACE])) as [[]|];
    reflexivity.
Qed.

(** X6. A reply in which no [{] has a [}] after it names no types. *)
Theorem parse_types_no_span (reply : pystr) :
  (forall a mid b, reply <> a ++ [LBRACE] ++ mid ++ [RBRACE] ++ b) ->
  parse_types h reply = Ret (PNone, PNone).
Proof.
  intros Hno. unfold parse_types. rewrite (json_object_absent _ Hno).
  reflexivity.
Qed.

Lemma vars_fence_needs_json s c :
  Re.search (re_vars_fence Re.accept) s = Some c ->
  exists a, occurs_at (py "```json") s a.
Proof.
  unfold re_vars_fence. intros H.
  apply search_lit_Some in H as (pre & r & -> & Hk & _).
  apply star_greedy_Some in Hk as (w & r' & -> & _ & Hk & _).
  apply lit_Some in Hk as (x & -> & _).
  exists (pre ++ py "Variables:" ++ w), x.
  rewrite <- !app_assoc. reflexivity.
Qed.

(** X7. Variables without a fence.  When the reply has no fence tagged
    [json], its first label [Variables:] is followed by white space and a
    [{], and the last [}] of the reply closes the span, the variables are
    what [json.loads] makes of the span, and the empty dict when it
    fails. *)
Theorem extract_bare_variables (pre ws mid post : pystr) :
  let response :=
    pre ++ py "Variables:" ++ ws ++ [LBRACE] ++ mid ++ [RBRACE] ++ post in
  (forall a, ~ occurs_at (py "```json") response a) ->
  first_at (py "Variables:") response pre ->
  forallb isspace ws = true ->
  ~ In RBRACE post ->
  exists q,
    extract_query_and_vars h response
    = Ret (q, match json_loads h (strip ([LBRACE] ++ mid ++ [RBRACE])) with
              | Some v => v
              | None => PDict []
              end).
Proof.
  intros response Hnofence Hlabel Hws Hpost.
  unfold extract_query_and_vars. eexists.
  destruct (Re.search (re_vars_fence Re.accept) response) as [c|] eqn:F.
  { exfalso. apply vars_fence_needs_json in F as (x & Hx).
    exact (Hnofence x Hx). }
  assert (B : Re.search (re_vars_bare Re.accept) response
              = Some [[LBRACE] ++ mid ++ [RBRACE]]).
  { unfold re_vars_bare. apply search_lit_intro; [exact Hlabel|].
    rewrite star_greedy_det.
    - change ([LBRACE] ++ mid ++ [RBRACE] ++ post)
        with (LBRACE :: (mid ++ [RBRACE] ++ post)).
      rewrite (drop_while_app isspace ws LBRACE _ Hws eq_refl).
      apply (json_object_here mid post [] Hpost).
    - intros x t c Hx. rewrite json_object_unfold.
      apply lit_cons_mismatch. intros <-. discriminate Hx. }
  rewrite B. cbn [group1 obind Re.group_at nth]. unfold loads.
  destruct (json_loads h (strip ([LBRACE] ++ mid ++ [RBRACE])));
    reflexivity.
Qed.

End WithHost.

Lemma find_index_None p s :
  find_index p s = None -> forall a, ~ occurs_at p s a.
Proof.
  induction s as [|x s IH]; simpl; intros H a [b E].
  - destruct (strip_prefix p []) eqn:S; [discriminate|].
    destruct a; [|discriminate]. simpl in E.
    rewrite E, strip_prefix_app in S. discriminate.
  - destruct (strip_prefix p (x :: s)) eqn:S; [discriminate|].
    destruct (find_index p s) eqn:F; [discriminate|].
    destruct a as [|y a].
    + simpl in E. rewrite E, strip_prefix_app in S. discriminate.
    + simpl in E. injection E as _ E. apply (IH eq_refl a). exists b. exact E.
Qed.

(** A reply that wraps the object in a sentence. *)
Lemma parse_types_span_witness :
  parse_types (Sample.host true)
    (py "Here are the types: " ++ [LBRACE]
     ++ Sample.types_inner (py "Workbook") (py "TableauUser")
     ++ [RBRACE] ++ py " as asked.")
  = Ret (PStr (py "Workbook"), PStr (py "TableauUser")).
Proof.
  rewrite (parse_types_span (Sample.host true) (py "Here are the types: ")
             (Sample.types_inner (py "Workbook") (py "TableauUser"))
             (py " as asked.")).
  - vm_compute. reflexivity.
  - vm_compute. intuition discriminate.
  - vm_compute. intuition discriminate.
Defined.

(** A reply without braces. *)
Lemma parse_types_no_span_witness :
  parse_types (Sample.host true) (py "I cannot tell.") = Ret (PNone, PNone).
Proof.
  apply (parse_types_no_span (Sample.host true) (py "I cannot tell.")).
  intros a mid b E.
  assert (H : In LBRACE (py "I cannot tell.")).
  { rewrite E. apply in_or_app. right. left. reflexivity. }
  vm_compute in H. intuition discriminate.
Defined.

(** Variables given as a bare object. *)
Lemma extract_bare_variables_witness :
  exists q,
    extract_query_and_vars (Sample.host true)
      (py "Query below. " ++ py "Variables:" ++ [NL] ++ [LBRACE]
       ++ Sample.types_inner (py "Workbook") (py "TableauUser")
       ++ [RBRACE] ++ [NL])
    = Ret (q, PDict [ (py "src_type", PStr (py "Workbook"));
                      (py "dst_type", PStr (py "TableauUser")) ]).
Proof.
  destruct (extract_bare_variables (Sample.host true) (py "Query below. ")
              [NL] (Sample.types_inner (py "Workbook") (py "TableauUser"))
              [NL]) as (q & Hq).
  - apply find_index_None. vm_compute. reflexivity.
  - apply first_at_check. vm_compute. reflexivity.
  - reflexivity.
  - vm_compute. intuition discriminate.
  - exists q. rewrite Hq. vm_compute. reflexivity.
Defined.

End JsonSpan.

Import JsonSpan.

(* ================================================================== *)
(** * More about the runs of the entry point *)
(* ================================================================== *)

Module RunExtras.

Lemma field_type_name_filter s :
  field_type_name s = filter (fun c => negb (is_wrapper c)) s.
Proof.
  unfold field_type_name, remove_char, is_wrapper.
  induction s as [|x s IH]; [reflexivity|]. simpl.
  destruct (N.eqb_spec x 33); simpl.
  - exact IH.
  - destruct (N.eqb_spec x 91); simpl.
    + exact IH.
    + destruct (N.eqb_spec x 93); simpl; [exact IH|].
      f_equal. exact IH.
Qed.

Lemma filter_all {A : Type} (f : A -> bool) l :
  forallb f l = true -> filter f l = l.
Proof.
  induction l as [|x l IH]; simpl; [reflexivity|].
  intros H. apply andb_true_iff in H as [-> H]. f_equal. auto.
Qed.

Lemma filter_nothing {A : Type} (f : A -> bool) l :
  forallb (fun x => negb (f x)) l = true -> filter f l = [].
Proof.
  induction l as [|x l IH]; simpl; [reflexivity|].
  intros H. apply andb_true_iff in H as [Hx H].
  destruct (f x); [discriminate|]. auto.
Qed.

Lemma forallb_negb2 {A : Type} (f : A -> bool) l :
  forallb (fun x => negb (negb (f x))) l = forallb f l.
Proof.
  induction l as [|x l IH]; simpl; [reflexivity|].
  rewrite negb_involutive, IH. reflexivity.
Qed.

(** X8. [build_graph] reads the name of the type of a field by taking
    every [!], [[] and []] out of its text: whatever such marks stand
    around a name that has none of them, what is left is the name. *)
Theorem field_type_name_unwraps (before name after : pystr) :
  forallb is_wrapper before = true ->
  forallb is_wrapper after = true ->
  forallb (fun c => negb (is_wrapper c)) name = true ->
  field_type_name (before ++ name ++ after) = name.
Proof.
  intros Hb Ha Hn. rewrite field_type_name_filter, !filter_app.
  rewrite (filter_all _ _ Hn).
  rewrite (filter_nothing (fun c => negb (is_wrapper c)) before),
          (filter_nothing (fun c => negb (is_wrapper c)) after).
  - rewrite app_nil_r. reflexivity.
  - rewrite <- Ha. apply forallb_negb2.
  - rewrite <- Hb. apply forallb_negb2.
Qed.

(** A non-null list of non-null workbooks. *)
Lemma field_type_name_unwraps_witness :
  field_type_name (py "[" ++ py "Workbook" ++ py "!]!") = py "Workbook".
Proof.
  apply (field_type_name_unwraps (py "[") (py "Workbook") (py "!]!"));
    reflexivity.
Defined.

(** ** The dict of allowed fields *)

Lemma lookup_value (F : pystr -> list pystr) :
  forall d k v,
    (forall k' v', In (k', v') d -> v' = F k') ->
    Llm.lookup d k = Ret v -> v = F k.
Proof.
  induction d as [|[k0 v0] d IH]; simpl; intros k v Hd H; [discriminate|].
  destruct (PyStr.eqb k0 k) eqn:E.
  - apply eqb_eq in E. subst. inversion H; subst. apply Hd. auto.
  - eapply IH; eauto.
Qed.

Lemma dict_set_value (F : pystr -> list pystr) d k :
  (forall k' v', In (k', v') d -> v' = F k') ->
  forall k' v', In (k', v') (dict_set d k (F k)) -> v' = F k'.
Proof.
  induction d as [|[k0 v0] d IH]; simpl; intros Hd k' v' H.
  - destruct H as [H|[]]. inversion H; subst. reflexivity.
  - destruct (PyStr.eqb k0 k) eqn:E.
    + apply eqb_eq in E. subst. destruct H as [H|H].
      * inversion H; subst. reflexivity.
      * apply Hd. auto.
    + destruct H as [H|H].
      * apply Hd. auto.
      * apply IH; auto.
Qed.

Lemma fold_value (F : pystr -> list pystr) keys : forall d,
  (forall k' v', In (k', v') d -> v' = F k') ->
  forall k' v',
    In (k', v')
       (fold_left (fun d kv => dict_set d (fst kv) (snd kv))
          (map (fun k => (k, F k)) keys) d) ->
    v' = F k'.
Proof.
  induction keys as [|k keys IH]; simpl; intros d Hd; [exact Hd|].
  apply IH. apply dict_set_value. exact Hd.
Qed.

Section WithHost.

Variable h : Host.

(** X9. The dict the correction step builds has an entry for the type of
    every issue, and the entry is the list of field names the database
    has for that type at that moment, empty for a type it does not know;
    so [build_correction_prompt] finds every key it looks up and returns
    a prompt.  The database is only read. *)
Theorem allowed_fields_complete (intent query : pystr) (invalids : list invalid)
  (st : State h) :
  exists m st',
    allowed_fields h invalids st = (Ret m, st')
    /\ graph st' = graph st
    /\ (forall inv, In inv invalids ->
          Llm.lookup m (inv_type inv)
          = Ret (field_names (graph st) (inv_type inv)))
    /\ exists prompt,
         build_correction_prompt intent query invalids m = Ret prompt.
Proof.
  destruct (allowed_fields_run h invalids st) as (m & Hrun & Hlook).
  exists m. eexists. split; [exact Hrun|]. split; [reflexivity|].
  split; [|apply build_correction_prompt_ok; exact Hlook].
  intros inv Hin. destruct (Hlook inv Hin) as (x & Hx). rewrite Hx.
  f_equal. unfold allowed_fields in Hrun.
  rewrite (bind_run h _ _ _ _ _ (allowed_entries_run h invalids st)) in Hrun.
  unfold ret in Hrun. inversion Hrun as [Hm]. clear Hrun.
  apply (lookup_value (field_names (graph st)) m (inv_type inv) x);
    [|exact Hx].
  rewrite <- Hm.
  replace (map (fun inv0 => (inv_type inv0,
                             field_names (graph st) (inv_type inv0)))
               invalids)
    with (map (fun k => (k, field_names (graph st) k))
              (map inv_type invalids))
    by (rewrite map_map; reflexivity).
  apply fold_value. intros k' v' [].
Qed.

(** X10. A run on a loaded database, with inferred types of which the
    path statement can be made, leaves the database as it was, whatever
    its outcome: every statement it sends is a reading one. *)
Theorem generate_store (intent : pystr) (max_hops max_retries : Z)
  (st : State h) (src dst : pystr) :
  env_ok h = true -> has_nodes (graph st) = true ->
  inferred h intent max_hops st src dst ->
  graph (snd (generate_graphql_with_inference h intent max_hops max_retries
                st))
  = graph st.
Proof.
  intros Henv Hstore Hinf.
  destruct (introspection_error h) as [e|] eqn:He.
  - destruct Hinf as (Hparse & Hok).
    startup h intent st Henv Hstore.
    erewrite (bind_run h _ _ _ (PStr src, PStr dst));
      [|apply lift_run; exact Hparse].
    cbn [str_of].
    rewrite (bind_run h _ _ _ _ _ (path_rows_run h src dst max_hops _ Hok)).
    cbn [update graph llm log after_queries run_all fold_left].
    destruct (shortest_paths (graph st) src dst max_hops) as [|p ps];
      [reflexivity|].
    unfold get_schema_snippet.
    erewrite (bind_run h _ _ _);
      [|rewrite (bind_run h _ _ _ _ _ (rows_run h _ _ _)); reflexivity].
    cbn [update graph str_of snippet_rows_for].
    rewrite (bind_run h _ _ _ _ _ (llm_predict_run h _ _)).
    cbn [graph llm log after_queries run_all fold_left update map].
    match goal with
    | |- context [extract_query_and_vars h ?r] =>
        destruct (extract_returns h r) as (qo & vars & Hx)
    end.
    erewrite (bind_run h _ _ _ (qo, vars)); [|apply lift_run; exact Hx].
    cbn [fst snd].
    destruct qo as [q|]; [|reflexivity].
    destruct (truthy q); cbn [negb]; [|reflexivity].
    erewrite bind_raise; [|apply validate_query_raises; exact He].
    reflexivity.
  - assert (Hready : validator_ready h = true)
      by (unfold validator_ready; rewrite He; reflexivity).
    destruct (generate_run h intent max_hops max_retries st src dst
                Henv Hstore Hready Hinf)
      as (res & st' & new & Hrun & Hg & _).
    rewrite Hrun. exact Hg.
Qed.

(** X11. With [max_retries] zero or less no correction is attempted: after
    the type inference the provider is asked once at most, and a query
    that fails validation comes back with its errors at once. *)
Theorem generate_without_retries (intent : pystr) (max_hops max_retries : Z)
  (st : State h) (src dst : pystr) :
  (max_retries <= 0)%Z ->
  env_ok h = true -> has_nodes (graph st) = true ->
  validator_ready h = true ->
  inferred h intent max_hops st src dst ->
  exists res st' new,
    generate_graphql_with_inference h intent max_hops max_retries st
    = (Ret res, st')
    /\ log st'
       = log st ++ map EvQuery startup_queries
         ++ [EvPredict (inference_prompt intent (graph st))
               (inference_reply h intent st)]
         ++ new
    /\ length (predicts new) <= 1
    /\ forall q errs,
         final (validations new) = Some (q, errs) ->
         exists v,
           res = query_result q v
                   (match errs with
                    | [] => PDict []
                    | _ :: _ => PList (map PStr errs)
                    end).
Proof.
  intros Hr Henv Hstore Hready Hinf.
  destruct (generate_run h intent max_hops max_retries st src dst
              Henv Hstore Hready Hinf)
    as (res & st' & new & Hrun & _ & Hlog & Hpost).
  exists res, st', new. split; [exact Hrun|]. split; [exact Hlog|].
  destruct (shortest_paths (graph st) src dst max_hops) as [|pth pths].
  { destruct Hpost as (_ & -> & ->). simpl. split; [lia|].
    intros q errs E. discriminate. }
  destruct Hpost as (p0 & r0 & rest & Hpr & Hlen & Hcases).
  assert (rest = []) as ->.
  { destruct rest; [reflexivity|]. simpl in Hlen. lia. }
  rewrite Hpr. split; [simpl; lia|].
  destruct Hcases as [(_ & Hva & ->)|[H|H]].
  - rewrite Hva. intros q errs E. discriminate.
  - destruct H as (p & r & Hne & _). congruence.
  - destruct H as (p & r & q & v & errs & Hf & Hx & Hvf & Hres).
    intros q' errs' E. rewrite Hvf in E. inversion E; subst q' errs'.
    exists v. destruct errs; [exact Hres | exact (proj1 Hres)].
Qed.

(** X12. A run on a loaded database whose last reply held a query that
    the last validation found free of errors returns that query, its
    variables, and an empty dict under [errors]. *)
Theorem generate_valid_result (intent : pystr) (max_hops max_retries : Z)
  (st : State h) (src dst : pystr) :
  env_ok h = true -> has_nodes (graph st) = true ->
  validator_ready h = true ->
  inferred h intent max_hops st src dst ->
  exists res st' new,
    generate_graphql_with_inference h intent max_hops max_retries st
    = (Ret res, st')
    /\ log st'
       = log st ++ map EvQuery startup_queries
         ++ [EvPredict (inference_prompt intent (graph st))
               (inference_reply h intent st)]
         ++ new
    /\ forall p r q v,
         final (predicts new) = Some (p, r) ->
         extract_query_and_vars h r = Ret (Some q, v) ->
         truthy q = true ->
         final (validations new) = Some (q, []) ->
         res = query_result q v (PDict []).
Proof.
  intros Henv Hstore Hready Hinf.
  destruct (generate_run h intent max_hops max_retries st src dst
              Henv Hstore Hready Hinf)
    as (res & st' & new & Hrun & _ & Hlog & Hpost).
  exists res, st', new. split; [exact Hrun|]. split; [exact Hlog|].
  intros p r q v Hf Hx Tq Hvf.
  destruct (shortest_paths (graph st) src dst max_hops) as [|pth pths].
  { destruct Hpost as (_ & Hpr & _). rewrite Hpr in Hf. discriminate. }
  destruct Hpost as (p0 & r0 & rest & Hpr & _ & Hcases).
  destruct Hcases as [(_ & Hva & _)|[H|H]].
  - rewrite Hva in Hvf. discriminate.
  - destruct H as (p' & r' & Hne & Hf' & _ & Hno).
    rewrite Hpr in Hf. rewrite (final_cons _ _ _ Hf') in Hf.
    inversion Hf; subst. rewrite (Hno _ _ Hx) in Tq. discriminate.
  - destruct H as (p' & r' & q' & v' & errs & Hf' & Hx' & Hvf' & Hres).
    rewrite Hf in Hf'. inversion Hf'; subst p' r'.
    rewrite Hx in Hx'. inversion Hx'; subst q' v'.
    rewrite Hvf in Hvf'. inversion Hvf'; subst errs. exact Hres.
Qed.


End WithHost.

(** The database of the sample after a run that ends with a query. *)
Lemma generate_store_witness :
  graph (snd (generate_graphql_with_inference (Sample.host true)
                Sample.intent 5 2
                (Sample.loaded
                   [ Sample.types_reply (py "Workbook") (py "TableauUser");
                     Sample.good_reply ])))
  = Sample.imported.
Proof.
  rewrite (generate_store (Sample.host true) Sample.intent 5 2
             (Sample.loaded
                [ Sample.types_reply (py "Workbook") (py "TableauUser");
                  Sample.good_reply ])
             (py "Workbook") (py "TableauUser"));
    try (vm_compute; reflexivity).
  split; vm_compute; reflexivity.
Defined.

(** A rejected query with no retry allowed. *)
Lemma generate_without_retries_witness :
  exists res st' new,
    generate_graphql_with_inference (Sample.host true) Sample.intent 5 0
      (Sample.loaded
         [ Sample.types_reply (py "Workbook") (py "TableauUser");
           Sample.bad_reply ])
    = (Ret res, st')
    /\ length (predicts new) <= 1.
Proof.
  destruct (generate_without_retries (Sample.host true) Sample.intent 5 0
              (Sample.loaded
                 [ Sample.types_reply (py "Workbook") (py "TableauUser");
                   Sample.bad_reply ])
              (py "Workbook") (py "TableauUser"))
    as (res & st' & new & Hrun & _ & Hlen & _).
  - lia.
  - vm_compute; reflexivity.
  - vm_compute; reflexivity.
  - vm_compute; reflexivity.
  - split; vm_compute; reflexivity.
  - exists res, st', new. split; [exact Hrun | exact Hlen].
Defined.

(** An accepted query. *)
Lemma generate_valid_result_witness :
  exists res st',
    generate_graphql_with_inference (Sample.host true) Sample.intent 5 2
      (Sample.loaded
         [ Sample.types_reply (py "Workbook") (py "TableauUser");
           Sample.good_reply ])
    = (Ret res, st').
Proof.
  destruct (generate_valid_result (Sample.host true) Sample.intent 5 2
              (Sample.loaded
                 [ Sample.types_reply (py "Workbook") (py "TableauUser");
                   Sample.good_reply ])
              (py "Workbook") (py "TableauUser"))
    as (res & st' & new & Hrun & _).
  - vm_compute; reflexivity.
  - vm_compute; reflexivity.
  - vm_compute; reflexivity.
  - split; vm_compute; reflexivity.
  - exists res, st'. exact Hrun.
Defined.


(** X13. [extract_invalids] gives at most one issue for a message, and
    the field and the type of every issue are not empty and hold no
    quote. *)
Theorem extract_invalids_wellformed (errors : list pystr) :
  length (extract_invalids errors) <= length errors
  /\ Forall (fun i =>
               inv_field i <> [] /\ inv_type i <> []
               /\ forallb Re.not_quote (inv_field i) = true
               /\ forallb Re.not_quote (inv_type i) = true)
            (extract_invalids errors).
Proof.
  induction errors as [|e rest [IHl IHf]]; simpl; [split; [lia|constructor]|].
  destruct (Re.search (re_cannot_query Re.accept) e) as [c|] eqn:E.
  - apply search_sound in E as (pre & f & t & -> & Hc & _).
    destruct Hc as (_ & Hf & Ht & Qf & Qt).
    split; [simpl; lia|]. constructor; [|exact IHf]. simpl. auto.
  - split; [lia | exact IHf].
Qed.

End RunExtras.

Import RunExtras.

(* ================================================================== *)
(** * app.py: what the interface shows *)
(* ================================================================== *)

Module AppFacts.

Lemma strings_map_PStr errs : strings (map PStr errs) = Some errs.
Proof.
  induction errs as [|e errs IH]; simpl; [reflexivity|].
  rewrite IH. reflexivity.
Qed.

Section WithHost.

Variable h : Host.
Variable float_truthy : pystr -> bool.

Lemma present_error intent msg :
  present float_truthy intent (error_result msg)
  = Ret (Shown intent PNone (PDict []) NO_ERRORS).
Proof. reflexivity. Qed.

Lemma present_raw_error intent msg raw :
  present float_truthy intent (raw_error_result msg raw)
  = Ret (Shown intent PNone (PDict []) NO_ERRORS).
Proof. reflexivity. Qed.

Lemma present_valid intent q v :
  present float_truthy intent (query_result q v (PDict []))
  = Ret (Shown intent (PStr q) v NO_ERRORS).
Proof. reflexivity. Qed.

Lemma present_partial intent q v e errs :
  present float_truthy intent
    (query_result q v (PList (map PStr (e :: errs))))
  = Ret (Shown intent (PStr q) v (join [NL] (e :: errs))).
Proof.
  unfold present, query_result.
  change (dict_get _ (py "errors")) with (PList (map PStr (e :: errs))).
  change (dict_get_or _ (py "errors") (PList []))
    with (PList (map PStr (e :: errs))).
  change (dict_get _ (py "query")) with (PStr q).
  change (dict_get_or _ (py "variables") (PDict [])) with v.
  cbn [py_truthy map]. unfold join_lines.
  change (PStr e :: map PStr errs) with (map PStr (e :: errs)).
  rewrite strings_map_PStr. reflexivity.
Qed.

(** X14. On a loaded database, where the pipeline returns a result,
    [run_inference] does not fail on it.  For a result with errors it
    shows the query, the variables and the errors, one on a line.  For
    every other result it shows the text [No validation errors]: for an
    accepted query, and also for an error object, whose message is not
    shown and for which the query is [None] and the variables are the
    empty dict. *)
Theorem run_inference_shows (intent : pystr) (st : State h)
  (src dst : pystr) :
  env_ok h = true -> has_nodes (graph st) = true ->
  validator_ready h = true ->
  inferred h intent 5 st src dst ->
  exists res sh st',
    generate_graphql_with_inference h intent 5 2 st = (Ret res, st')
    /\ run_inference h float_truthy intent st = (Ret sh, st')
    /\ shown_for intent res sh.
Proof.
  intros Henv Hstore Hready Hinf.
  destruct (generate_run h intent 5 2 st src dst Henv Hstore Hready Hinf)
    as (res & st' & new & Hrun & _ & _ & Hpost).
  assert (Hshape : exists sh,
             present float_truthy intent res = Ret sh
             /\ shown_for intent res sh).
  { destruct (shortest_paths (graph st) src dst 5) as [|pth pths].
    - destruct Hpost as (-> & _). eexists. split; [apply present_error|].
      constructor.
    - destruct Hpost as (p0 & r0 & rest & _ & _ & [(_ & _ & ->)|[H|H]]).
      + eexists. split; [apply present_raw_error | constructor].
      + destruct H as (p & r & _ & _ & -> & _).
        eexists. split; [apply present_raw_error | constructor].
      + destruct H as (p & r & q & v & errs & _ & _ & _ & Hres).
        destruct errs as [|e errs].
        * subst res. eexists. split; [apply present_valid | constructor].
        * destruct Hres as [-> _].
          eexists. split; [apply present_partial | constructor]. }
  destruct Hshape as (sh & Hpres & Hsh).
  exists res, sh, st'. split; [exact Hrun|]. split; [|exact Hsh].
  unfold run_inference. rewrite (bind_run h _ _ _ _ _ Hrun).
  unfold lift. rewrite Hpres. reflexivity.
Qed.

End WithHost.

(** A run without a path: the interface shows no query and no error. *)
Lemma run_inference_shows_witness :
  fst (run_inference (Sample.host true) (fun _ => true) Sample.intent
         (Sample.loaded
            [ Sample.types_reply (py "String") (py "Workbook") ]))
  = Ret (Shown Sample.intent PNone (PDict []) NO_ERRORS).
Proof.
  destruct (run_inference_shows (Sample.host true) (fun _ => true)
              Sample.intent
              (Sample.loaded
                 [ Sample.types_reply (py "String") (py "Workbook") ])
              (py "String") (py "Workbook"))
    as (res & sh & st' & _ & Hrun & _).
  - vm_compute; reflexivity.
  - vm_compute; reflexivity.
  - vm_compute; reflexivity.
  - split; vm_compute; reflexivity.
  - assert (E : fst (run_inference (Sample.host true) (fun _ => true)
                       Sample.intent
                       (Sample.loaded
                          [ Sample.types_reply (py "String")
                              (py "Workbook") ]))
                = Ret (Shown Sample.intent PNone (PDict []) NO_ERRORS))
      by (vm_compute; reflexivity).
    exact E.
Defined.

End AppFacts.

Import AppFacts.

(* ================================================================== *)
(** * The checks of the environment *)
(* ================================================================== *)

Module EnvFacts.

Section WithHost.

Variable h : Host.

Lemma filter_nil_forall {A : Type} (f : A -> bool) l :
  filter f l = [] -> forall x, In x l -> f x = false.
Proof.
  induction l as [|y l IH]; simpl; intros H x Hin; [contradiction|].
  destruct (f y) eqn:E; [discriminate|].
  destruct Hin as [<-|Hin]; auto.
Qed.

Lemma not_missing var :
  env_missing h var = false ->
  exists x, getenv h var = Some x /\ x <> [].
Proof.
  unfold env_missing. destruct (getenv h var) as [x|]; [|discriminate].
  intros H. exists x. split; [reflexivity|].
  destruct x; [discriminate | discriminate].
Qed.

(** X15. When [check_env_vars()] returns, each of the six variables is
    set to a text that is not empty and the dict returned holds it; the
    checks that follow in the pipeline, [check_llm_env_vars()] and those
    at the head of [init_graph_driver()] and [get_llm()], then pass as
    well, so that these return and leave the state alone (the connection
    and the client are taken to be made once the variables are there). *)
Theorem check_env_vars_covers (d : list (pystr * option pystr)) :
  check_env_vars h None = Ret d ->
  (forall var, In var (NEO4J_VARS ++ LLM_VARS) ->
     exists x, getenv h var = Some x /\ x <> [] /\ In (var, Some x) d)
  /\ (exists d', check_llm_env_vars h None = Ret d')
  /\ (forall st : State h, init_graph_driver h st = (Ret tt, st))
  /\ (forall st : State h, get_llm h st = (Ret tt, st)).
Proof.
  unfold check_env_vars.
  destruct (filter (env_missing h) (NEO4J_VARS ++ LLM_VARS)) eqn:F;
    [|discriminate].
  intros H.
  assert (Hd : d = map (fun var => (var, getenv h var))
                     (NEO4J_VARS ++ LLM_VARS)) by congruence.
  clear H. subst d.
  pose proof (filter_nil_forall _ _ F) as Hall.
  assert (Hllm : filter (env_missing h) LLM_VARS = []).
  { apply filter_none. apply forallb_forall. intros x Hx.
    rewrite (Hall x); [reflexivity|]. apply in_or_app. auto. }
  assert (Hneo : filter (env_missing h) NEO4J_VARS = []).
  { apply filter_none. apply forallb_forall. intros x Hx.
    rewrite (Hall x); [reflexivity|]. apply in_or_app. auto. }
  split; [|split; [|split]].
  - intros var Hin. destruct (not_missing var (Hall var Hin)) as (x & Hx & Hne).
    exists x. split; [exact Hx|]. split; [exact Hne|].
    apply in_map_iff. exists var. rewrite Hx. auto.
  - unfold check_llm_env_vars. rewrite Hllm. eauto.
  - intros st. unfold init_graph_driver, bind, lift, check_env_vars.
    rewrite Hneo. reflexivity.
  - intros st. unfold get_llm, bind, lift, check_llm_env_vars.
    rewrite Hllm. reflexivity.
Qed.

End WithHost.

(** The sample environment has every variable set. *)
Lemma check_env_vars_covers_witness :
  exists d', check_llm_env_vars (Sample.host true) None = Ret d'.
Proof.
  refine (proj1 (proj2 (check_env_vars_covers (Sample.host true) _ _))).
  vm_compute. reflexivity.
Defined.

End EnvFacts.

Import EnvFacts.

(* ================================================================== *)
(** * A reply without a query *)
(* ================================================================== *)

Module OutputFacts.

Section WithHost.

Variable h : Host.

(** X16. On a loaded database, when a path was found and the reply to
    the generation prompt holds no query, or a fenced block with nothing
    but white space in it, the entry point returns the error [Invalid LLM
    output] with the reply under [raw]: the validator is not run and the
    provider is not asked again. *)
Theorem generate_invalid_output (intent : pystr) (max_hops max_retries : Z)
  (st : State h) (src dst : pystr) :
  env_ok h = true -> has_nodes (graph st) = true ->
  inferred h intent max_hops st src dst ->
  shortest_paths (graph st) src dst max_hops <> [] ->
  (forall q v,
      extract_query_and_vars h (generation_reply h intent max_hops st src dst)
      = Ret (Some q, v) -> q = []) ->
  exists st' added,
    generate_graphql_with_inference h intent max_hops max_retries st
    = (Ret (raw_error_result (py "Invalid LLM output")
              (generation_reply h intent max_hops st src dst)), st')
    /\ log st' = log st ++ added
    /\ validations added = []
    /\ predicts added
       = [ (inference_prompt intent (graph st),
            inference_reply h intent st);
           (generation_prompt intent max_hops (graph st) src dst,
            generation_reply h intent max_hops st src dst) ].
Proof.
  intros Henv Hstore (Hparse & Hok) Hpath Hnone.
  startup h intent st Henv Hstore.
  set (st1 := after_queries h startup_queries st).
  set (reply := inference_reply h intent st) in *.
  set (iprompt := inference_prompt intent (graph st)) in *.
  erewrite (bind_run h _ _ _ (PStr src, PStr dst));
    [|apply lift_run; exact Hparse].
  cbn [str_of].
  rewrite (bind_run h _ _ _ _ _ (path_rows_run h src dst max_hops _ Hok)).
  cbn [update graph llm log after_queries run_all fold_left].
  set (g1 := graph st) in *.
  set (l1 := snd (predict h (llm st) iprompt)).
  assert (Er : generation_reply h intent max_hops st src dst
               = fst (predict h l1
                        (generation_prompt intent max_hops g1 src dst)))
    by reflexivity.
  rewrite Er in *. clear Er.
  unfold generation_prompt in *.
  destruct (shortest_paths g1 src dst max_hops) as [|p ps] eqn:Epaths;
    [congruence|].
  unfold get_schema_snippet.
  erewrite (bind_run h _ _ _);
    [|rewrite (bind_run h _ _ _ _ _ (rows_run h _ _ _)); reflexivity].
  cbn [update graph str_of snippet_rows_for].
  set (snippet := render_snippet src (snippet_rows g1 src)) in *.
  set (gprompt := graphql_prompt_format intent
                    (join [NL] (map describe_path (p :: ps))) snippet) in *.
  rewrite (bind_run h _ _ _ _ _ (llm_predict_run h gprompt _)).
  cbn [graph llm log after_queries run_all fold_left update map].
  set (r0 := fst (predict h l1 gprompt)) in *.
  destruct (extract_returns h r0) as (qo & vars & Hx).
  erewrite (bind_run h _ _ _ (qo, vars)); [|apply lift_run; exact Hx].
  cbn [fst snd].
  assert (Hq : match qo with Some q => q = [] | None => True end).
  { destruct qo as [q|]; [|exact I]. exact (Hnone q vars Hx). }
  eexists. eexists.
  split.
  - destruct qo as [q|]; [subst q|]; reflexivity.
  - cbn [log]. split.
    + unfold st1, after_queries. cbn [log]. rewrite <- !app_assoc.
      reflexivity.
    + rewrite !validations_app, !predicts_app,
              validations_queries, predicts_queries.
      split; reflexivity.
Qed.

End WithHost.

(** A reply that is only prose. *)
Lemma generate_invalid_output_witness :
  exists st',
    generate_graphql_with_inference (Sample.host true) Sample.intent 5 2
      (Sample.loaded
         [ Sample.types_reply (py "Workbook") (py "TableauUser");
           py "No valid path" ])
    = (Ret (raw_error_result (py "Invalid LLM output") (py "No valid path")),
       st').
Proof.
  destruct (generate_invalid_output (Sample.host true) Sample.intent 5 2
              (Sample.loaded
                 [ Sample.types_reply (py "Workbook") (py "TableauUser");
                   py "No valid path" ])
              (py "Workbook") (py "TableauUser"))
    as (st' & added & Hrun & _).
  - vm_compute; reflexivity.
  - vm_compute; reflexivity.
  - split; vm_compute; reflexivity.
  - vm_compute. discriminate.
  - intros q v H. vm_compute in H. discriminate.
  - exists st'. exact Hrun.
Defined.

End OutputFacts.

Import OutputFacts.

